(** * MindGPT: the backend proxy (api/index.js) and the browser orchestrator
      (script.js), embedded in Rocq.

    JavaScript strings are sequences of UTF-16 code units; the string
    methods the program calls ([split], [join], [startsWith], [replace],
    [trim], [includes]) are written out over that representation.  The
    upstream generative model, the browser's [fetch] and
    [localStorage.setItem] are fallible external calls: each is an oracle
    whose every possible outcome is a constructor, and the handlers record
    the prompts they send.  The errors the JavaScript engine itself throws
    (a TypeError, a URIError) are parameters: their wording is the
    engine's. *)

From Stdlib Require Import NArith List Ascii String Bool DecimalString.
From stdpp Require Import gmap list.
Import ListNotations.

Local Open Scope N_scope.

(* ===================================================================== *)
(** ** JavaScript strings *)
(* ===================================================================== *)

Module JsString.

(** A UTF-16 code unit. *)
Definition code_unit := N.

Definition jsstring := list code_unit.

(** An ASCII source literal as a JS string. *)
Definition lit (s : string) : jsstring :=
  List.map N_of_ascii (list_ascii_of_string s).

Definition LF : code_unit := 10.
Definition DQUOTE : code_unit := 34.

Definition eqb_str (a b : jsstring) : bool :=
  bool_decide (a = b).

(** [!s] for a string [s]: only the empty string is falsy. *)
Definition is_empty (s : jsstring) : bool :=
  match s with [] => true | _ => false end.

(** ECMAScript WhiteSpace and LineTerminator code points, the set that
    [String.prototype.trim] strips. *)
Definition isWhiteSpace (c : code_unit) : bool :=
  (c =? 9) || (c =? 10) || (c =? 11) || (c =? 12) || (c =? 13)
  || (c =? 32) || (c =? 160) || (c =? 5760)
  || ((8192 <=? c) && (c <=? 8202))
  || (c =? 8232) || (c =? 8233) || (c =? 8239) || (c =? 8287)
  || (c =? 12288) || (c =? 65279).

Fixpoint trimStart (s : jsstring) : jsstring :=
  match s with
  | [] => []
  | c :: s' => if isWhiteSpace c then trimStart s' else s
  end.

Definition trimEnd (s : jsstring) : jsstring :=
  rev (trimStart (rev s)).

Definition trim (s : jsstring) : jsstring :=
  trimEnd (trimStart s).

(** [s.startsWith(p)] *)
Fixpoint startsWith (s p : jsstring) {struct p} : bool :=
  match p, s with
  | [], _ => true
  | _ :: _, [] => false
  | c :: p', d :: s' => (c =? d) && startsWith s' p'
  end.

(** [s.includes(p)] *)
Fixpoint includes (s p : jsstring) : bool :=
  startsWith s p ||
  match s with
  | [] => false
  | _ :: s' => includes s' p
  end.

(** [s.replace(pat, rep)] with a string pattern and a replacement free
    of [$]: the first occurrence of [pat] is replaced. *)
Fixpoint replace (s pat rep : jsstring) : jsstring :=
  if startsWith s pat then rep ++ skipn (length pat) s
  else match s with
       | [] => []
       | c :: s' => c :: replace s' pat rep
       end.

(** [s.split(sep)] for a one-unit separator: never the empty array. *)
Fixpoint split (sep : code_unit) (s : jsstring) : list jsstring :=
  match s with
  | [] => [[]]
  | c :: s' =>
      if c =? sep then [] :: split sep s'
      else match split sep s' with
           | [] => [[c]]
           | l :: ls => (c :: l) :: ls
           end
  end.

(** [a.join(sep)] *)
Fixpoint join (sep : code_unit) (a : list jsstring) : jsstring :=
  match a with
  | [] => []
  | [l] => l
  | l :: ls => l ++ sep :: join sep ls
  end.

(** [a.push(x)] *)
Definition push {A} (a : list A) (x : A) : list A := a ++ [x].

End JsString.

Import JsString.

(* ===================================================================== *)
(** ** The backend: api/index.js *)
(* ===================================================================== *)

Module Server.

(** *** Parsing the upstream text (the body of the /generate-post try block) *)

Definition MARKER : jsstring := lit "SEARCH_QUERY:".

(** A marker line: one that begins with the marker token. *)
Definition is_marker_line (l : jsstring) : bool := startsWith l MARKER.

Record Parsed := {
  responseTextLines : list jsstring;
  searchQueries : list jsstring
}.

(** The callback of [lines.forEach]. *)
Definition parse_line (acc : Parsed) (line : jsstring) : Parsed :=
  if startsWith line MARKER then
    {| responseTextLines := responseTextLines acc;
       searchQueries := push (searchQueries acc) (trim (replace line MARKER [])) |}
  else
    {| responseTextLines := push (responseTextLines acc) line;
       searchQueries := searchQueries acc |}.

Definition parse_lines (fullResponseText : jsstring) : Parsed :=
  fold_left parse_line (split LF fullResponseText)
    {| responseTextLines := []; searchQueries := [] |}.

Record GenerationResult := {
  responseText : jsstring;
  result_searchQueries : list jsstring
}.

Definition parse_response (fullResponseText : jsstring) : GenerationResult :=
  let p := parse_lines fullResponseText in
  {| responseText := trim (join LF (responseTextLines p));
     result_searchQueries := searchQueries p |}.

(** *** CORS configuration *)

Definition allowedOrigins : list jsstring :=
  [ lit "https://mindgpt-ai.vercel.app";
    lit "http://localhost:5500";
    lit "http://127.0.0.1:5500" ].

(** A thrown or passed-on exception; [message] is [error.message]. *)
Record js_error := Error { message : option jsstring }.

(** [!v] for a value that is a string when present. *)
Definition falsy (v : option jsstring) : bool :=
  match v with
  | None => true
  | Some s => is_empty s
  end.

(** [allowedOrigins.includes(origin)] *)
Definition array_includes (a : list jsstring) (origin : option jsstring) : bool :=
  match origin with
  | None => false
  | Some o => existsb (fun x => eqb_str x o) a
  end.

(** What the origin function hands to its callback:
    [callback(null, true)] or [callback(new Error(...))]. *)
Inductive cors_callback :=
| CorsAllow
| CorsError (e : js_error).

(** [corsOptions.origin]; the argument is the request's Origin header,
    [None] when the request carries none. *)
Definition corsOptions_origin (origin : option jsstring) : cors_callback :=
  if falsy origin || array_includes allowedOrigins origin then CorsAllow
  else CorsError (Error (Some (lit "Not allowed by CORS"))).

(** *** HTTP replies *)

Inductive payload :=
| ErrorPayload (error : jsstring)
| SuggestionsPayload (suggestions : list jsstring)
| ResultPayload (r : GenerationResult).

Record reply := { status : N; json : payload }.

(** *** Rate limiter *)

Module apiLimiter.

(** The options passed to [rateLimit]. *)
Definition windowMs : N := 5 * 60 * 1000.
Definition max : N := 15.
Definition message : payload :=
  ErrorPayload (lit "Too many requests from this IP, please try again after 5 minutes.").

(** Modelled from the spec: the body of [rateLimit] (the
    express-rate-limit package) is not part of the sources.  A
    RateWindow is a per-client counter and a window-start timestamp. *)
Record RateWindow := { count : N; windowStart : N }.

Inductive decision := Admit | Reject.

(** Modelled from the spec: the decision of [rateLimit]'s middleware.
    A fixed window keyed by client identifier: a window that has
    elapsed is reset, an admission increments the window's count, and
    a request that finds the count at [max] inside the window is
    rejected (not queued). *)
Definition check (store : gmap jsstring RateWindow) (key : jsstring) (now : N)
  : decision * gmap jsstring RateWindow :=
  match store !! key with
  | Some w =>
      if now <? windowStart w + windowMs then
        if count w <? max then
          (Admit, <[key := {| count := count w + 1; windowStart := windowStart w |}]> store)
        else (Reject, store)
      else (Admit, <[key := {| count := 1; windowStart := now |}]> store)
  | None => (Admit, <[key := {| count := 1; windowStart := now |}]> store)
  end.

(** Modelled from the spec: the reply on rejection, a too-many-requests
    status with the configured [message]. *)
Definition rejection : reply := {| status := 429; json := message |}.

(** The stored count never exceeds [max]. *)
Definition bounded (store : gmap jsstring RateWindow) : Prop :=
  forall key w, store !! key = Some w -> count w <= max.

(** The client has no window open at [now]: none yet, or one that
    has elapsed. *)
Definition no_active_window (store : gmap jsstring RateWindow) (key : jsstring) (now : N) : Prop :=
  match store !! key with
  | Some w => windowStart w + windowMs <= now
  | None => True
  end.

End apiLimiter.

(** *** The upstream model *)

(** What calling [response.text()] does. *)
Inductive text_call :=
| TextReturns (s : jsstring)
| TextThrows (e : js_error).

(** The awaited [result.response] object: its [text] property (a
    function when present) and [promptFeedback?.blockReason]. *)
Record Response := {
  text : option text_call;
  blockReason : option jsstring
}.

(** One [generateContent(prompt)] round trip followed by
    [await result.response]. *)
Inductive upstream_outcome :=
| Rejects (e : js_error)
| Resolves (response : option Response).

Definition upstream := jsstring -> upstream_outcome.

(** What a handler did: the reply, the prompts it sent upstream (in
    order) and the error details it wrote to the console. *)
Record handled := {
  sent : reply;
  upstream_calls : list jsstring;
  error_details : list jsstring
}.

(** *** POST /generate-suggestions *)

Definition suggestions_prompt (query : jsstring) : jsstring :=
  lit "Based on the user's partial search query " ++ [DQUOTE] ++ query ++ [DQUOTE]
  ++ lit ", generate a list of 4 relevant and diverse search topic suggestions to help them complete their thought. Each suggestion should be on a new line. Do not include numbering or bullet points.".

(** [error.message] as [console.error] and a template literal print it. *)
Definition message_or_undefined (e : js_error) : jsstring :=
  match message e with
  | Some m => m
  | None => lit "undefined"
  end.

(** The try block: the suggestions, or the error that reaches the catch
    block.  [typeError] is the TypeError the engine throws when
    [response.text()] is called on a response that is absent or has no
    [text] function; its wording is the engine's. *)
Definition try_suggestions (typeError : option Response -> js_error)
    (o : upstream_outcome) : js_error + list jsstring :=
  match o with
  | Rejects e => inl e
  | Resolves response =>
      match response with
      | Some {| text := Some call |} =>
          match call with
          | TextReturns t =>
              inr (List.filter (fun s => negb (eqb_str (trim s) [])) (split LF t))
          | TextThrows e => inl e
          end
      | _ => inl (typeError response)
      end
  end.

(** The handler for a [query] that is a string when present, as the
    endpoint's interface declares it. *)
Definition generate_suggestions (typeError : option Response -> js_error)
    (up : upstream) (query : option jsstring) : handled :=
  match query with
  | Some q =>
      if falsy query || (N.of_nat (length (trim q)) <? 3) then
        {| sent := {| status := 200; json := SuggestionsPayload [] |};
           upstream_calls := []; error_details := [] |}
      else
        let prompt := suggestions_prompt q in
        match try_suggestions typeError (up prompt) with
        | inr suggestions =>
            {| sent := {| status := 200; json := SuggestionsPayload suggestions |};
               upstream_calls := [prompt]; error_details := [] |}
        | inl error =>
            {| sent := {| status := 200; json := SuggestionsPayload [] |};
               upstream_calls := [prompt];
               error_details := [message_or_undefined error] |}
        end
  | None =>
      {| sent := {| status := 200; json := SuggestionsPayload [] |};
         upstream_calls := []; error_details := [] |}
  end.

(** What the JSON body can hold in [query], as far as the handler tells
    values apart: nothing, a string, another falsy value ([null], [false],
    [0]) or another truthy one ([true], a number other than zero, an
    array, an object). *)
Inductive posted_query :=
| QueryAbsent
| QueryString (s : jsstring)
| QueryFalsy
| QueryTruthy.

(** The handler for whatever the body holds.  The guard stands before
    the try block: a truthy value that is no string has no [trim], the
    call throws and the handler ends without a reply of its own ([None]). *)
Definition generate_suggestions_posted (typeError : option Response -> js_error)
    (up : upstream) (query : posted_query) : option handled :=
  match query with
  | QueryAbsent => Some (generate_suggestions typeError up None)
  | QueryString s => Some (generate_suggestions typeError up (Some s))
  | QueryFalsy =>
      Some {| sent := {| status := 200; json := SuggestionsPayload [] |};
              upstream_calls := []; error_details := [] |}
  | QueryTruthy => None
  end.

(** *** The prompt builder *)

Definition formattingInstruction : jsstring :=
  lit "Do not use asterisks for emphasis (like *word*). Only use asterisks for bullet points. After the main response, provide a list of 3 relevant web search queries that would help the user learn more. Each query must be on a new line and prefixed with 'SEARCH_QUERY:'. For example:\nSEARCH_QUERY: history of artificial intelligence".

(** The labels the [switch] names. *)
Definition recognized_styles : list jsstring :=
  [ lit "Professional"; lit "Casual"; lit "Simple"; lit "Creative" ].

(** [case 'label':] of a [switch (style)]: strict equality. *)
Definition case_ (style : option jsstring) (label : string) : bool :=
  match style with
  | Some s => eqb_str s (lit label)
  | None => false
  end.

Definition getPromptForStyle (topic : jsstring) (style : option jsstring) : jsstring :=
  if case_ style "Professional" then
    lit "You are a professional assistant. Respond to the following topic in a formal, structured, and business-appropriate tone. "
    ++ formattingInstruction ++ lit " Topic: " ++ [DQUOTE] ++ topic ++ [DQUOTE]
  else if case_ style "Casual" then
    lit "You are a friendly and casual AI companion. Respond to the following in a relaxed, conversational, and approachable tone. Use informal language where appropriate. "
    ++ formattingInstruction ++ lit " Topic: " ++ [DQUOTE] ++ topic ++ [DQUOTE]
  else if case_ style "Simple" then
    lit "You are an expert at simplification. Explain the following topic in simple, clear, and easy-to-understand terms. Avoid jargon and use analogies if it helps. "
    ++ formattingInstruction ++ lit " Topic: " ++ [DQUOTE] ++ topic ++ [DQUOTE]
  else if case_ style "Creative" then
    lit "You are a creative and witty AI. Respond to the following topic with originality, humor, and a touch of cleverness. Feel free to be imaginative. "
    ++ formattingInstruction ++ lit " Topic: " ++ [DQUOTE] ++ topic ++ [DQUOTE]
  else
    lit "You are a helpful and knowledgeable AI assistant. Provide a detailed and informative answer for the following question or topic. "
    ++ formattingInstruction ++ lit " Topic: " ++ [DQUOTE] ++ topic ++ [DQUOTE].

(** *** POST /generate-post *)

(** The request body [{ topic, style }]: each field is a string when
    present, as the endpoint's interface declares it. *)
Record PostBody := { topic : option jsstring; style : option jsstring }.

(** The [errorMessage] of the response check. *)
Definition errorMessage (response : option Response) : jsstring :=
  match response ≫= blockReason with
  | Some ((_ :: _) as reason) =>
      lit "Request was blocked by the AI's safety filters. Reason: " ++ reason
      ++ lit ". Please try a different topic."
  | _ => lit "The AI model returned an empty or invalid response."
  end.

(** The try block from the awaited response on: the parsed result, or
    the exception that reaches the catch block. *)
Definition try_generate (o : upstream_outcome) : js_error + GenerationResult :=
  match o with
  | Rejects e => inl e
  | Resolves response =>
      match response with
      | Some {| text := Some call |} =>
          match call with
          | TextReturns fullResponseText => inr (parse_response fullResponseText)
          | TextThrows e => inl e
          end
      | _ => inl (Error (Some (errorMessage response)))
      end
  end.

(** The test of the catch block for a quota or rate-limit issue. *)
Definition is_quota_error (error : js_error) : bool :=
  match message error with
  | Some m => negb (is_empty m) && (includes m (lit "429") || includes m (lit "quota"))
  | None => false
  end.

Definition QUOTA_MESSAGE : jsstring :=
  lit "The daily API quota has been reached. Please try again tomorrow.".
Definition GENERIC_MESSAGE : jsstring :=
  lit "An unexpected server error occurred. Please check the server logs.".
Definition TOPIC_REQUIRED : jsstring := lit "Topic is required".

(** Worded from the claim: the text [p] occurs in [s]. *)
Definition occurs_in (p s : jsstring) : Prop :=
  exists pre post, s = pre ++ p ++ post.

(** Worded from the claim: an error message that matches the quota or
    rate-limit pattern, the code "429" or the keyword "quota". *)
Definition quota_pattern (m : option jsstring) : Prop :=
  exists s, m = Some s /\ (occurs_in (lit "429") s \/ occurs_in (lit "quota") s).

(** The reply of the catch block. *)
Definition catch_reply (error : js_error) : reply :=
  if is_quota_error error then {| status := 429; json := ErrorPayload QUOTA_MESSAGE |}
  else {| status := 500; json := ErrorPayload GENERIC_MESSAGE |}.

(** [error.message || 'No specific message available.'], the detail
    the catch block logs. *)
Definition logged_detail (error : js_error) : jsstring :=
  match message error with
  | Some ((_ :: _) as m) => m
  | _ => lit "No specific message available."
  end.

Definition generate_post (up : upstream) (body : PostBody) : handled :=
  match topic body with
  | Some ((_ :: _) as topic) =>
      let prompt := getPromptForStyle topic (style body) in
      match try_generate (up prompt) with
      | inr r =>
          {| sent := {| status := 200; json := ResultPayload r |};
             upstream_calls := [prompt]; error_details := [] |}
      | inl error =>
          {| sent := catch_reply error;
             upstream_calls := [prompt]; error_details := [logged_detail error] |}
      end
  | _ =>
      {| sent := {| status := 400; json := ErrorPayload TOPIC_REQUIRED |};
         upstream_calls := []; error_details := [] |}
  end.

(** *** The application: cors, then the limiter, then the route handler *)

Record Request (B : Type) := {
  origin : option jsstring;   (* the Origin header *)
  ip : jsstring;              (* the limiter's client key *)
  arrival : N;                (* arrival time in milliseconds *)
  body : B
}.
Arguments origin {B}.
Arguments ip {B}.
Arguments arrival {B}.
Arguments body {B}.

(** A request either stops in the cors middleware with the error it
    passed on, or is answered by the limiter or the handler. *)
Inductive outcome :=
| CorsRejected (e : js_error)
| Answered (h : handled).

(** A request of the client [key] that passes the cors middleware. *)
Definition from_client {B} (key : jsstring) (r : Request B) : Prop :=
  ip r = key /\ corsOptions_origin (origin r) = CorsAllow.

(** The limiter's answer: its reply, with no handler run. *)
Definition limited : handled :=
  {| sent := apiLimiter.rejection; upstream_calls := []; error_details := [] |}.

Definition route {B} (handler : B -> handled)
    (store : gmap jsstring apiLimiter.RateWindow) (req : Request B)
  : outcome * gmap jsstring apiLimiter.RateWindow :=
  match corsOptions_origin (origin req) with
  | CorsError e => (CorsRejected e, store)
  | CorsAllow =>
      match apiLimiter.check store (ip req) (arrival req) with
      | (apiLimiter.Reject, store') =>
          (Answered limited, store')
      | (apiLimiter.Admit, store') => (Answered (handler (body req)), store')
      end
  end.

(** The application answering a sequence of requests, oldest first;
    only the limiter's store lives from one request to the next. *)
Fixpoint serve {B} (handler : B -> handled)
    (store : gmap jsstring apiLimiter.RateWindow) (reqs : list (Request B))
  : list outcome * gmap jsstring apiLimiter.RateWindow :=
  match reqs with
  | [] => ([], store)
  | r :: rs =>
      let (o, store1) := route handler store r in
      let (os, store2) := serve handler store1 rs in
      (o :: os, store2)
  end.

Definition post_generate_suggestions (typeError : option Response -> js_error)
    (up : upstream) :=
  route (B := option jsstring) (generate_suggestions typeError up).

Definition post_generate_post (up : upstream) :=
  route (B := PostBody) (generate_post up).

End Server.

(* ===================================================================== *)
(** ** The browser orchestrator: script.js *)
(* ===================================================================== *)

Module Client.

Import Server.

Record HistoryEntry := {
  id : N;
  entry_topic : jsstring;
  entry_tone : jsstring;
  entry_responseText : jsstring;
  entry_searchQueries : list jsstring
}.

Record Submission := { sub_topic : jsstring; sub_tone : jsstring }.

(** What the page shows. *)
Record View := {
  userPromptText : jsstring;
  postOutput : jsstring;
  searchLinks : list jsstring;
  resultContainer_shown : bool;
  copyButton_shown : bool;
  regenerateButton_shown : bool;
  searchLinksContainer_shown : bool;
  generateButton_disabled : bool
}.

(** The module-scoped variables, the two form fields, the stored copy
    of the history and the page. *)
Record State := {
  history : list HistoryEntry;
  lastSubmission : Submission;
  saved_history : list HistoryEntry;   (* localStorage 'ai-assistant-history' *)
  topicTextarea_value : jsstring;
  toneSelect_value : jsstring;
  view : View
}.

(** The JSON body of the POST to /generate-post. *)
Record FetchBody := { fetch_topic : jsstring; fetch_style : jsstring }.

(** The [data] of a successful reply. *)
Record Data := {
  data_responseText : jsstring;
  data_searchQueries : option (list jsstring)
}.

(** [await response.json()]: the parsed body, or the exception. *)
Inductive parsed (A : Type) :=
| Json (a : A)
| NotJson (e : js_error).
Arguments Json {A}.
Arguments NotJson {A}.

(** Every way one [fetch] can go; an error body is read through its
    [error] field. *)
Inductive fetch_outcome :=
| FetchThrows (e : js_error)
| NotOk (status : N) (errorData : parsed (option jsstring))
| Ok (data : parsed Data).

Record Effects := { requests : list FetchBody; alerts : list jsstring }.

(** *** encodeURIComponent, as [renderSearchQueries] calls it *)

(** The characters left as they are: letters, digits and [- _ . ! ~ * ' ( )]. *)
Definition isUnreserved (c : code_unit) : bool :=
  ((65 <=? c) && (c <=? 90)) || ((97 <=? c) && (c <=? 122))
  || ((48 <=? c) && (c <=? 57))
  || (c =? 45) || (c =? 95) || (c =? 46) || (c =? 33) || (c =? 126)
  || (c =? 42) || (c =? 39) || (c =? 40) || (c =? 41).

Definition isHighSurrogate (c : code_unit) : bool := (55296 <=? c) && (c <=? 56319).
Definition isLowSurrogate (c : code_unit) : bool := (56320 <=? c) && (c <=? 57343).

(** An upper-case hexadecimal digit. *)
Definition hexDigit (n : N) : code_unit := if n <? 10 then 48 + n else 55 + n.

Definition PERCENT : code_unit := 37.

(** One octet as [%XX]. *)
Definition escapeOctet (b : N) : jsstring := [PERCENT; hexDigit (b / 16); hexDigit (b mod 16)].

(** The UTF-8 octets of a code point. *)
Definition utf8 (cp : N) : list N :=
  if cp <? 128 then [cp]
  else if cp <? 2048 then [192 + cp / 64; 128 + cp mod 64]
  else if cp <? 65536 then [224 + cp / 4096; 128 + (cp / 64) mod 64; 128 + cp mod 64]
  else [240 + cp / 262144; 128 + (cp / 4096) mod 64; 128 + (cp / 64) mod 64; 128 + cp mod 64].

Definition escapeCodePoint (cp : N) : jsstring := concat (List.map escapeOctet (utf8 cp)).

(** What an encoded component is made of: unreserved characters and
    the percent sign of the escapes (whose digits are unreserved). *)
Definition url_safe (c : code_unit) : bool := isUnreserved c || (c =? PERCENT).

(** [encodeURIComponent(s)]; [None] is the URIError thrown for a
    surrogate that has no partner. *)
Fixpoint encodeURIComponent (s : jsstring) : option jsstring :=
  match s with
  | [] => Some []
  | c :: rest =>
      if isUnreserved c then option_map (cons c) (encodeURIComponent rest)
      else if isLowSurrogate c then None
      else if isHighSurrogate c then
        match rest with
        | d :: rest' =>
            if isLowSurrogate d then
              option_map (app (escapeCodePoint (65536 + (c - 55296) * 1024 + (d - 56320))))
                (encodeURIComponent rest')
            else None
        | [] => None
        end
      else option_map (app (escapeCodePoint c)) (encodeURIComponent rest)
  end.

(** [s.isWellFormed()]: every surrogate is half of a pair. *)
Fixpoint isWellFormed (s : jsstring) : bool :=
  match s with
  | [] => true
  | c :: rest =>
      if isLowSurrogate c then false
      else if isHighSurrogate c then
        match rest with
        | d :: rest' => isLowSurrogate d && isWellFormed rest'
        | [] => false
        end
      else isWellFormed rest
  end.

(** *** The search links *)

(** An anchor of the links list. *)
Record Link := { href : jsstring; textContent : jsstring }.

(** The body of the [forEach] callback of [renderSearchQueries]:
    the link created for one query, unless encoding it throws. *)
Definition searchLink (query : jsstring) : option Link :=
  match encodeURIComponent query with
  | Some q => Some {| href := lit "https://www.google.com/search?q=" ++ q;
                      textContent := query |}
  | None => None
  end.

(** The [forEach] of [renderSearchQueries] over a non-empty array: the
    links appended, and whether the loop ran to its end ([false]: a
    query threw, the links before it stay appended). *)
Fixpoint appendLinks (queries : list jsstring) : list Link * bool :=
  match queries with
  | [] => ([], true)
  | q :: qs =>
      match searchLink q with
      | Some l => let (ls, done) := appendLinks qs in (l :: ls, done)
      | None => ([], false)
      end
  end.

(** [queries || []]: the queries of a reply, none when the reply has no
    such field. *)
Definition queries_of (queries : option (list jsstring)) : list jsstring :=
  match queries with Some qs => qs | None => [] end.

(** What a call of [renderSearchQueries] did: it ran to its end, leaving
    these links (by their text) and the container shown or hidden; or
    encoding a query threw, the links appended until then staying in the
    list and the container as it was. *)
Inductive rendering :=
| Rendered (links : list jsstring) (shown : bool)
| RenderThrew (links : list jsstring).

Definition renderSearchQueries (queries : option (list jsstring)) : rendering :=
  match queries with
  | Some ((_ :: _) as qs) =>
      let (links, completed) := appendLinks qs in
      if completed then Rendered (List.map textContent links) true
      else RenderThrew (List.map textContent links)
  | _ => Rendered [] false
  end.

(** [saveHistory]; [setItem] is [localStorage.setItem] for the history
    key, which stores the value or throws ([Some]). *)
Definition saveHistory (setItem : list HistoryEntry -> option js_error) (st : State)
  : State * option js_error :=
  match setItem (history st) with
  | None =>
      ({| history := history st; lastSubmission := lastSubmission st;
          saved_history := history st;
          topicTextarea_value := topicTextarea_value st;
          toneSelect_value := toneSelect_value st; view := view st |}, None)
  | Some e => (st, Some e)
  end.

(** [addToHistory]: unshift, then save; when the save throws the entry
    is in the history already.  Re-rendering the sidebar changes no
    variable. *)
Definition addToHistory (setItem : list HistoryEntry -> option js_error)
    (entry : HistoryEntry) (st : State) : State * option js_error :=
  saveHistory setItem
    {| history := entry :: history st; lastSubmission := lastSubmission st;
       saved_history := saved_history st;
       topicTextarea_value := topicTextarea_value st;
       toneSelect_value := toneSelect_value st; view := view st |}.

Definition decimal (n : N) : jsstring :=
  lit (NilEmpty.string_of_uint (N.to_uint n)).

(** The message of the error thrown for a reply that is not ok. *)
Definition http_errorMessage (status : N) (errorData : parsed (option jsstring)) : jsstring :=
  match errorData with
  | Json (Some ((_ :: _) as e)) => e
  | Json _ => lit "Server error: " ++ decimal status
  | NotJson _ =>
      lit "Server responded with status " ++ decimal status
      ++ lit ". The response was not valid JSON. Check Vercel logs."
  end.

(** [`${error.message}`] in the failure text. *)
Definition message_text (e : js_error) : jsstring :=
  match message e with
  | Some m => m
  | None => lit "undefined"
  end.

(** The try block: the data to show, or the error caught. *)
Definition try_fetch (o : fetch_outcome) : js_error + Data :=
  match o with
  | FetchThrows e => inl e
  | NotOk status errorData => inl (Error (Some (http_errorMessage status errorData)))
  | Ok (NotJson e) => inl e
  | Ok (Json data) => inr data
  end.

Definition with_view (v : View) (st : State) : State :=
  {| history := history st; lastSubmission := lastSubmission st;
     saved_history := saved_history st;
     topicTextarea_value := topicTextarea_value st;
     toneSelect_value := toneSelect_value st; view := v |}.

(** The catch block and the finally block, run on what the page showed
    when the try block threw. *)
Definition show_failure (error : js_error) (v : View) : View :=
  {| userPromptText := userPromptText v;
     postOutput := lit "Failed to generate response. Error: " ++ message_text error;
     searchLinks := searchLinks v;
     resultContainer_shown := true;
     copyButton_shown := copyButton_shown v;
     regenerateButton_shown := regenerateButton_shown v;
     searchLinksContainer_shown := searchLinksContainer_shown v;
     generateButton_disabled := false |}.

(** [uriError] is the URIError the browser's [encodeURIComponent]
    throws; its message is worded by the engine. *)
Definition handleGeneration (uriError : js_error)
    (setItem : list HistoryEntry -> option js_error)
    (fetch : FetchBody -> fetch_outcome) (now : N)
    (isRegeneration : bool) (st : State) : State * Effects :=
  let topic := if isRegeneration then sub_topic (lastSubmission st) else topicTextarea_value st in
  let tone := if isRegeneration then sub_tone (lastSubmission st) else toneSelect_value st in
  if is_empty (trim topic) then
    (st, {| requests := []; alerts := [lit "Please enter a topic or question."] |})
  else
    let request := {| fetch_topic := topic; fetch_style := tone |} in
    (* the page once the loading state is shown *)
    let loading :=
      {| userPromptText := userPromptText (view st);
         postOutput := postOutput (view st);
         searchLinks := searchLinks (view st);
         resultContainer_shown := false;
         copyButton_shown := false;
         regenerateButton_shown := false;
         searchLinksContainer_shown := false;
         generateButton_disabled := true |} in
    let st' :=
      match try_fetch (fetch request) with
      | inl error => with_view (show_failure error loading) st
      | inr data =>
          let displayed links shown :=
            {| userPromptText := lit "Your prompt: " ++ topic;
               postOutput := data_responseText data;
               searchLinks := links;
               resultContainer_shown := true;
               copyButton_shown := true;
               regenerateButton_shown := true;
               searchLinksContainer_shown := shown;
               generateButton_disabled := true |} in
          match renderSearchQueries (data_searchQueries data) with
          | RenderThrew links =>
              with_view (show_failure uriError (displayed links false)) st
          | Rendered links shown =>
              let stored :=
                {| history := history st;
                   lastSubmission := {| sub_topic := topic; sub_tone := tone |};
                   saved_history := saved_history st;
                   topicTextarea_value := topicTextarea_value st;
                   toneSelect_value := toneSelect_value st;
                   view := {| userPromptText := lit "Your prompt: " ++ topic;
                              postOutput := data_responseText data;
                              searchLinks := links;
                              resultContainer_shown := true;
                              copyButton_shown := true;
                              regenerateButton_shown := true;
                              searchLinksContainer_shown := shown;
                              generateButton_disabled := false |} |} in
              let historyEntry :=
                {| id := now; entry_topic := topic; entry_tone := tone;
                   entry_responseText := data_responseText data;
                   entry_searchQueries := queries_of (data_searchQueries data) |} in
              if negb isRegeneration then
                match addToHistory setItem historyEntry stored with
                | (added, None) => added
                | (added, Some error) =>
                    with_view (show_failure error (displayed links shown)) added
                end
              else stored
          end
      end in
    (st', {| requests := [request]; alerts := [] |}).

End Client.

(* ===================================================================== *)
(** ** The rest of the page: links, history sidebar, theme *)
(* ===================================================================== *)

Module Page.

Import Server Client.

(** *** The history sidebar *)

(** Truncate topic to 25 characters for display in the sidebar. *)
Definition displayTopic (topic : jsstring) : jsstring :=
  if (25 <? length topic)%nat then firstn 25 topic ++ lit "..." else topic.

(** One [div.history-item]. *)
Record HistoryItem := {
  item_textContent : jsstring;
  item_data_id : N;
  item_title : jsstring
}.

(** What [historyList] holds after [renderHistory]: a message, or items. *)
Inductive HistoryList :=
| NoHistory (innerHTML : jsstring)
| Items (items : list HistoryItem).

Definition historyItem (entry : HistoryEntry) : HistoryItem :=
  {| item_textContent := displayTopic (entry_topic entry);
     item_data_id := id entry;
     item_title := entry_topic entry |}.

Section RenderHistory.

(** [String.prototype.toLowerCase], whose Unicode tables are taken as given. *)
Variable toLowerCase : jsstring -> jsstring.

(** The entries [renderHistory] keeps for a search box content. *)
Definition filteredHistory (searchValue : jsstring) (history : list HistoryEntry)
  : list HistoryEntry :=
  let searchTerm := toLowerCase searchValue in
  List.filter (fun entry => includes (toLowerCase (entry_topic entry)) searchTerm) history.

Definition renderHistory (searchValue : jsstring) (history : list HistoryEntry) : HistoryList :=
  match history with
  | [] =>
      NoHistory (lit "<p class=" ++ [DQUOTE] ++ lit "no-history" ++ [DQUOTE]
                 ++ lit ">Your generation history will appear here.</p>")
  | _ :: _ =>
      match filteredHistory searchValue history with
      | [] =>
          NoHistory (lit "<p class=" ++ [DQUOTE] ++ lit "no-history" ++ [DQUOTE]
                     ++ lit ">No matching history found.</p>")
      | (_ :: _) as filtered => Items (List.map historyItem filtered)
      end
  end.

End RenderHistory.

(** The click listener of a history item.  The tone field takes the
    entry's tone, which the select offered when the entry was made.  When
    [renderSearchQueries] throws, the listener stops there: the form is
    not filled in. *)
Definition selectEntry (entry : HistoryEntry) (st : State) : State :=
  match renderSearchQueries (Some (entry_searchQueries entry)) with
  | Rendered links shown =>
      {| history := history st;
         lastSubmission := lastSubmission st;
         saved_history := saved_history st;
         topicTextarea_value := entry_topic entry;
         toneSelect_value := entry_tone entry;
         view := {| userPromptText := lit "Your prompt: " ++ entry_topic entry;
                    postOutput := entry_responseText entry;
                    searchLinks := links;
                    resultContainer_shown := true;
                    copyButton_shown := true;
                    regenerateButton_shown := true;
                    searchLinksContainer_shown := shown;
                    generateButton_disabled := generateButton_disabled (view st) |} |}
  | RenderThrew links =>
      with_view
        {| userPromptText := lit "Your prompt: " ++ entry_topic entry;
           postOutput := entry_responseText entry;
           searchLinks := links;
           resultContainer_shown := true;
           copyButton_shown := true;
           regenerateButton_shown := true;
           searchLinksContainer_shown := searchLinksContainer_shown (view st);
           generateButton_disabled := generateButton_disabled (view st) |} st
  end.

(** The click listener of the clear button; when the save throws, the
    history is empty already. *)
Definition clearHistory (setItem : list HistoryEntry -> option js_error) (st : State)
  : State :=
  fst (saveHistory setItem
         {| history := []; lastSubmission := lastSubmission st;
            saved_history := saved_history st;
            topicTextarea_value := topicTextarea_value st;
            toneSelect_value := toneSelect_value st; view := view st |}).

(** [loadHistory]; [savedHistory] is what [localStorage.getItem] gave,
    parsed ([None] for a key never written). *)
Definition loadHistory (savedHistory : option (list HistoryEntry)) (st : State) : State :=
  {| history := match savedHistory with
                | Some parsed => parsed
                | None => history st
                end;
     lastSubmission := lastSubmission st;
     saved_history := saved_history st;
     topicTextarea_value := topicTextarea_value st;
     toneSelect_value := toneSelect_value st; view := view st |}.

(** The script's variables as declared, before the initialization runs. *)
Definition declared (stored : option (list HistoryEntry)) (topic tone : jsstring)
    (page : View) : State :=
  {| history := [];
     lastSubmission := {| sub_topic := []; sub_tone := [] |};
     saved_history := match stored with Some h => h | None => [] end;
     topicTextarea_value := topic;
     toneSelect_value := tone;
     view := page |}.

(** A (re)load of the page: the declarations, then [loadHistory]. *)
Definition initialize (stored : option (list HistoryEntry)) (topic tone : jsstring)
    (page : View) : State :=
  loadHistory stored (declared stored topic tone page).

(** What the user can do on the page, each with the listener it fires
    and with what [fetch] and [localStorage.setItem] do when called. *)
Inductive event :=
| Submit (fetch : FetchBody -> fetch_outcome)
    (setItem : list HistoryEntry -> option js_error) (now : N)
| Regenerate (fetch : FetchBody -> fetch_outcome) (now : N)
| Select (i : nat)
| Clear (setItem : list HistoryEntry -> option js_error)
| Edit (topic tone : jsstring).

(** One event; a regeneration saves nothing, so its [setItem] is never
    called. *)
Definition step (uriError : js_error) (st : State) (ev : event) : State :=
  match ev with
  | Submit fetch setItem now => fst (handleGeneration uriError setItem fetch now false st)
  | Regenerate fetch now => fst (handleGeneration uriError (fun _ => None) fetch now true st)
  | Select i =>
      match history st !! i with
      | Some entry => selectEntry entry st
      | None => st
      end
  | Clear setItem => clearHistory setItem st
  | Edit topic tone =>
      {| history := history st; lastSubmission := lastSubmission st;
         saved_history := saved_history st;
         topicTextarea_value := topic; toneSelect_value := tone; view := view st |}
  end.

Definition run (uriError : js_error) (st : State) (events : list event) : State :=
  fold_left (step uriError) events st.

Definition is_clear (ev : event) : bool :=
  match ev with Clear _ => true | _ => false end.

(** The storage takes every value it is given. *)
Definition accepts (setItem : list HistoryEntry -> option js_error) : Prop :=
  forall h, setItem h = None.

(** An event during which no write to the storage is refused. *)
Definition storage_accepts (ev : event) : Prop :=
  match ev with
  | Submit _ setItem _ => accepts setItem
  | Clear setItem => accepts setItem
  | _ => True
  end.

(** *** The theme *)






(** *** Upstream traffic *)

(** The prompts one request caused to be sent upstream. *)
Definition prompts_of (o : outcome) : list jsstring :=
  match o with
  | Answered h => upstream_calls h
  | CorsRejected _ => []
  end.

(** *** The page talking to the backend *)

(** [response.ok] *)
Definition response_ok (status : N) : bool := (200 <=? status) && (status <=? 299).

(** The JSON body the page posts, as the handler destructures it. *)
Definition posted (rq : FetchBody) : PostBody :=
  {| topic := Some (fetch_topic rq); style := Some (fetch_style rq) |}.

(** A reply of /generate-post as the page's [fetch] receives it; [None]
    for a payload of another endpoint. *)
Definition received (r : reply) : option fetch_outcome :=
  match json r with
  | ResultPayload g =>
      if response_ok (status r) then
        Some (Ok (Json {| data_responseText := responseText g;
                          data_searchQueries := Some (result_searchQueries g) |}))
      else None
  | ErrorPayload e =>
      if response_ok (status r) then None
      else Some (NotOk (status r) (Json (Some e)))
  | SuggestionsPayload _ => None
  end.

End Page.

(* ===================================================================== *)
(** ** Facts about the string methods *)
(* ===================================================================== *)

Module JsStringFacts.

Lemma startsWith_prefix (s p : jsstring) :
  startsWith s p = true <-> s = p ++ skipn (length p) s.
Proof.
  revert s; induction p as [|c p IH]; intros s; simpl.
  - split; intros _; reflexivity.
  - destruct s as [|d s]; simpl.
    + split; discriminate.
    + rewrite andb_true_iff, N.eqb_eq, IH. split.
      * intros [-> H]. f_equal. exact H.
      * intros H. injection H as -> H. split; [reflexivity | exact H].
Qed.

Lemma startsWith_app (p rest : jsstring) : startsWith (p ++ rest) p = true.
Proof.
  induction p as [|c p IH]; simpl; [reflexivity|].
  rewrite N.eqb_refl. exact IH.
Qed.

(** Replacing a prefix by the empty string drops it. *)
Lemma replace_prefix (s p : jsstring) :
  startsWith s p = true -> replace s p [] = skipn (length p) s.
Proof.
  intros H. destruct s; simpl; rewrite H; reflexivity.
Qed.

Lemma split_nonempty sep s : split sep s <> [].
Proof.
  destruct s as [|c s]; simpl; [discriminate|].
  destruct (c =? sep); [discriminate|].
  destruct (split sep s); discriminate.
Qed.

(** Splitting loses nothing: joining the pieces gives the text back. *)
Lemma join_split sep s : join sep (split sep s) = s.
Proof.
  induction s as [|c s IH]; simpl; [reflexivity|].
  destruct (N.eqb_spec c sep) as [->|Hne].
  - pose proof (split_nonempty sep s) as Hn.
    simpl. destruct (split sep s) as [|l ls]; [contradiction|].
    simpl in *. rewrite IH. reflexivity.
  - pose proof (split_nonempty sep s) as Hn.
    destruct (split sep s) as [|l ls]; [contradiction|].
    simpl in *. destruct ls; simpl in *; rewrite <- IH; reflexivity.
Qed.

(** No piece of a split contains the separator. *)
Lemma split_no_sep sep s :
  Forall (fun l => ~ In sep l) (split sep s).
Proof.
  induction s as [|c s IH]; simpl.
  - constructor; [intros [] | constructor].
  - destruct (N.eqb_spec c sep) as [->|Hne].
    + constructor; [intros [] | exact IH].
    + destruct (split sep s) as [|l ls].
      * constructor; [|constructor]. intros [H|[]]. congruence.
      * inversion IH; subst. constructor; [|assumption].
        intros [H|H]; [congruence | contradiction].
Qed.

Lemma trimStart_decompose s :
  exists ws, s = ws ++ trimStart s /\ Forall (fun c => isWhiteSpace c = true) ws.
Proof.
  induction s as [|c s (ws & Hs & Hws)]; simpl.
  - exists []. split; [reflexivity | constructor].
  - destruct (isWhiteSpace c) eqn:Hc.
    + exists (c :: ws). split; [simpl; f_equal; exact Hs | constructor; assumption].
    + exists []. split; [reflexivity | constructor].
Qed.

Lemma trimStart_head s c r :
  trimStart s = c :: r -> isWhiteSpace c = false.
Proof.
  induction s as [|d s IH]; simpl; [discriminate|].
  destruct (isWhiteSpace d) eqn:Hd; [exact IH|].
  intros H; injection H as -> _. exact Hd.
Qed.

Lemma trimStart_idem s : trimStart (trimStart s) = trimStart s.
Proof.
  destruct (trimStart s) as [|c r] eqn:E; [reflexivity|].
  simpl. rewrite (trimStart_head _ _ _ E). reflexivity.
Qed.

(** [trim] removes a run of white space at each end and nothing else. *)
Lemma trim_decompose s :
  exists pre post,
    s = pre ++ trim s ++ post
    /\ Forall (fun c => isWhiteSpace c = true) pre
    /\ Forall (fun c => isWhiteSpace c = true) post.
Proof.
  destruct (trimStart_decompose s) as (pre & Hs & Hpre).
  destruct (trimStart_decompose (rev (trimStart s))) as (ws & Hr & Hws).
  exists pre, (rev ws). unfold trim, trimEnd. split; [|split].
  - rewrite <- rev_app_distr, <- Hr, rev_involutive. exact Hs.
  - exact Hpre.
  - apply Forall_rev. exact Hws.
Qed.

Lemma trimStart_last s c :
  isWhiteSpace c = false -> trimStart (s ++ [c]) = trimStart s ++ [c].
Proof.
  intros Hc. induction s as [|d s IH]; simpl.
  - rewrite Hc. reflexivity.
  - destruct (isWhiteSpace d); [exact IH | reflexivity].
Qed.

(** What [trim] returns neither starts nor ends with white space. *)
Lemma trim_first s c r : trim s = c :: r -> isWhiteSpace c = false.
Proof.
  unfold trim, trimEnd. intros H.
  destruct (trimStart (rev (trimStart s))) as [|d u] eqn:E; [discriminate|].
  pose proof (trimStart_head _ _ _ E) as Hd.
  destruct (trimStart_decompose (rev (trimStart s))) as (ws & Hr & Hws).
  rewrite E in Hr.
  assert (Hts : trimStart s = rev u ++ d :: rev ws).
  { rewrite <- (rev_involutive (trimStart s)), Hr, rev_app_distr. simpl.
    rewrite <- app_assoc. reflexivity. }
  simpl in H. destruct (rev u) as [|e v] eqn:Eu; simpl in *.
  - injection H as <- _. exact Hd.
  - injection H as <- _. eapply trimStart_head. exact Hts.
Qed.

Lemma trim_last s r c : trim s = r ++ [c] -> isWhiteSpace c = false.
Proof.
  unfold trim, trimEnd. intros H.
  apply (f_equal (@rev _)) in H. rewrite rev_involutive, rev_app_distr in H.
  simpl in H. eapply trimStart_head. exact H.
Qed.

Lemma trimStart_nil s : is_empty (trimStart s) = forallb isWhiteSpace s.
Proof.
  induction s as [|c s IH]; simpl; [reflexivity|].
  destruct (isWhiteSpace c); [exact IH | reflexivity].
Qed.

(** [s.trim() === ''] exactly for the empty and the white-space-only
    strings. *)
Lemma trim_nil s : is_empty (trim s) = forallb isWhiteSpace s.
Proof.
  rewrite <- trimStart_nil. unfold trim, trimEnd.
  destruct (trimStart s) as [|c r] eqn:E; [reflexivity|].
  pose proof (trimStart_head _ _ _ E) as Hc.
  simpl. rewrite (trimStart_last _ _ Hc), rev_app_distr. reflexivity.
Qed.

Lemma eqb_str_nil s : eqb_str s [] = is_empty s.
Proof. destruct s; reflexivity. Qed.

Lemma includes_infix (pre p post : jsstring) : includes (pre ++ p ++ post) p = true.
Proof.
  induction pre as [|c pre IH]; simpl.
  - destruct (p ++ post) eqn:E; simpl; rewrite <- ?E, startsWith_app; reflexivity.
  - rewrite IH. apply orb_true_r.
Qed.

End JsStringFacts.

(* ===================================================================== *)
(** ** The backend's contract *)
(* ===================================================================== *)

Module ServerSpec.

Import Server JsStringFacts.

(** *** The response parser *)

Lemma fold_parse_line (ls : list jsstring) (acc : Parsed) :
  fold_left parse_line ls acc =
    {| responseTextLines :=
         responseTextLines acc ++ List.filter (fun l => negb (is_marker_line l)) ls;
       searchQueries :=
         searchQueries acc
         ++ List.map (fun l => trim (replace l MARKER []))
              (List.filter is_marker_line ls) |}.
Proof.
  revert acc; induction ls as [|l ls IH]; intros acc; simpl.
  - rewrite !app_nil_r. destruct acc; reflexivity.
  - rewrite IH. unfold parse_line, is_marker_line, push.
    destruct (startsWith l MARKER); simpl; rewrite <- ?app_assoc; reflexivity.
Qed.

Lemma marker_lines_shape (ls : list jsstring) :
  Forall (fun l => l = MARKER ++ skipn (length MARKER) l) (List.filter is_marker_line ls).
Proof.
  apply List.Forall_forall. intros l Hl.
  apply List.filter_In in Hl as [_ Hl].
  apply startsWith_prefix. exact Hl.
Qed.

(** C1.  For every raw upstream text, split at its line feeds (the
    pieces joined by line feeds are the text again): the parser's
    [searchQueries] has one entry per line that begins with
    [SEARCH_QUERY:], in the order of those lines, each entry being what
    follows the marker, trimmed; there are as many entries as marker
    lines, zero included; and [responseText] is the other lines, in
    their order, joined by line feeds and then trimmed. *)
Theorem parse_response_marker_lines (raw : jsstring) :
  let lines := split LF raw in
  let marked := List.filter is_marker_line lines in
  let others := List.filter (fun l => negb (is_marker_line l)) lines in
  join LF lines = raw
  /\ Forall (fun l => l = MARKER ++ skipn (length MARKER) l) marked
  /\ result_searchQueries (parse_response raw)
     = List.map (fun l => trim (skipn (length MARKER) l)) marked
  /\ length (result_searchQueries (parse_response raw)) = length marked
  /\ responseText (parse_response raw) = trim (join LF others).
Proof.
  intros lines marked others.
  assert (Hq : result_searchQueries (parse_response raw)
               = List.map (fun l => trim (skipn (length MARKER) l)) marked).
  { unfold parse_response, parse_lines; simpl.
    rewrite fold_parse_line; simpl.
    apply List.map_ext_in. intros l Hl.
    apply List.filter_In in Hl as [_ Hl].
    rewrite (replace_prefix _ _ Hl). reflexivity. }
  split; [apply join_split|].
  split; [apply marker_lines_shape|].
  split; [exact Hq|].
  split.
  - rewrite Hq. apply List.length_map.
  - unfold parse_response, parse_lines; simpl.
    rewrite fold_parse_line. reflexivity.
Qed.

(** *** The rate limiter *)

Import apiLimiter.

Lemma check_bounded store key now :
  bounded store -> bounded (snd (check store key now)).
Proof.
  intros Hb k w. unfold check.
  destruct (store !! key) as [w0|] eqn:Hk; simpl.
  - destruct (now <? windowStart w0 + windowMs).
    + destruct (N.ltb_spec (count w0) max) as [Hlt|Hge]; simpl.
      * destruct (decide (key = k)) as [->|Hne].
        -- rewrite lookup_insert_eq. intros [= <-]. simpl. lia.
        -- rewrite lookup_insert_ne by done. apply Hb.
      * apply Hb.
    + simpl. destruct (decide (key = k)) as [->|Hne].
      * rewrite lookup_insert_eq. intros [= <-]. simpl. unfold max. lia.
      * rewrite lookup_insert_ne by done. apply Hb.
  - destruct (decide (key = k)) as [->|Hne].
    + rewrite lookup_insert_eq. intros [= <-]. simpl. unfold max. lia.
    + rewrite lookup_insert_ne by done. apply Hb.
Qed.

(** Other clients' windows are not touched. *)
Lemma check_other store key now k :
  key <> k -> snd (check store key now) !! k = store !! k.
Proof.
  intros Hne. unfold check.
  destruct (store !! key) as [w0|]; simpl.
  - destruct (now <? windowStart w0 + windowMs);
      [destruct (count w0 <? max)|]; simpl;
      rewrite ?lookup_insert_ne by done; reflexivity.
  - rewrite lookup_insert_ne by done; reflexivity.
Qed.

(** Whatever requests are served, the stored counts stay at most [max]. *)
Lemma serve_bounded {B} (handler : B -> handled) (reqs : list (Request B)) :
  forall store, bounded store -> bounded (snd (serve handler store reqs)).
Proof.
  induction reqs as [|r rs IH]; intros store Hb; [exact Hb|].
  cbn [serve]. destruct (route handler store r) as [o store1] eqn:Hr.
  specialize (IH store1). destruct (serve handler store1 rs) as [os store2].
  cbn [snd] in *. apply IH.
  unfold route in Hr. destruct (corsOptions_origin (origin r)).
  - pose proof (check_bounded store (ip r) (arrival r) Hb) as Hc.
    destruct (check store (ip r) (arrival r)) as [[] s1]; injection Hr as _ <-; exact Hc.
  - injection Hr as _ <-. exact Hb.
Qed.

Lemma bounded_empty : bounded ∅.
Proof. intros k w. rewrite lookup_empty. discriminate. Qed.

Section OneClient.

Context {B : Type} (handler : B -> handled).
Variable key : jsstring.

(** Inside a window opened at [t0] with [c] requests counted, the
    limiter lets [max - c] more requests through to the handler and
    answers every later one itself. *)
Lemma serve_inside_window (reqs : list (Request B)) :
  forall store c t0,
    store !! key = Some {| count := c; windowStart := t0 |} ->
    c <= max ->
    Forall (fun r => from_client key r /\ arrival r < t0 + windowMs) reqs ->
    serve handler store reqs =
      (List.map (fun r => Answered (handler (body r))) (take (N.to_nat (max - c)) reqs)
       ++ List.map (fun _ => Answered limited) (drop (N.to_nat (max - c)) reqs),
       <[key := {| count := N.min max (c + N.of_nat (length reqs)); windowStart := t0 |}]> store).
Proof.
  induction reqs as [|r rs IH]; intros store c t0 Hk Hc Hall.
  - simpl. rewrite take_nil, drop_nil. simpl. f_equal.
    rewrite N.add_0_r, N.min_r by lia. symmetry. apply insert_id. exact Hk.
  - apply Forall_cons in Hall as [[[Hip Hcors] Hin] Hrest].
    cbn [serve]. unfold route. rewrite Hcors, Hip. unfold check. rewrite Hk.
    cbn [windowStart count].
    destruct (N.ltb_spec (arrival r) (t0 + windowMs)) as [_|Hge]; [|lia].
    destruct (N.ltb_spec c max) as [Hlt|Hge].
    + rewrite (IH _ (c + 1) t0); [|apply lookup_insert_eq|lia|exact Hrest].
      replace (N.to_nat (max - c)) with (S (N.to_nat (max - (c + 1)))) by lia.
      cbn [take drop List.map app]. f_equal.
      rewrite insert_insert_eq. f_equal. f_equal.
      cbn [length]. lia.
    + assert (c = max) as -> by lia.
      rewrite (IH _ max t0); [|exact Hk|lia|exact Hrest].
      rewrite N.sub_diag. cbn [N.to_nat take drop List.map app]. f_equal.
      f_equal. f_equal. cbn [length]. lia.
Qed.

(** The first request after a window has elapsed (or the first ever)
    is admitted and opens a window with a count of one. *)
Lemma route_opens_window store (r : Request B) :
  from_client key r ->
  no_active_window store key (arrival r) ->
  route handler store r =
    (Answered (handler (body r)),
     <[key := {| count := 1; windowStart := arrival r |}]> store).
Proof.
  intros [Hip Hcors] Hno. unfold route. rewrite Hcors, Hip.
  unfold no_active_window in Hno. unfold check.
  destruct (store !! key) as [w|]; [|reflexivity].
  destruct (N.ltb_spec (arrival r) (windowStart w + windowMs)); [lia | reflexivity].
Qed.

(** C2.  One client, whose requests pass the cors check: the first
    request finds no active window, the others arrive inside the five
    minutes that follow it, and one more arrives once those have
    elapsed.  Then the first fifteen requests reach the handler and
    the sixteenth and every later one inside the window are answered by
    the limiter with status 429 and its error payload, no handler and
    no upstream call being run; the stored count stays at most 15; and
    the late request is admitted with the count reset to one. *)
Theorem limiter_fifteen_per_window
    (store : gmap jsstring RateWindow) (first : Request B)
    (rest : list (Request B)) (late : Request B) :
  Forall (from_client key) (first :: rest ++ [late]) ->
  no_active_window store key (arrival first) ->
  Forall (fun r => arrival r < arrival first + windowMs) rest ->
  arrival first + windowMs <= arrival late ->
  let reqs := first :: rest in
  let served := serve handler store reqs in
  fst served =
    List.map (fun r => Answered (handler (body r))) (take 15 reqs)
    ++ List.map (fun _ => Answered limited) (drop 15 reqs)
  /\ sent limited =
       {| status := 429;
          json := ErrorPayload
            (lit "Too many requests from this IP, please try again after 5 minutes.") |}
  /\ upstream_calls limited = []
  /\ (exists w, snd served !! key = Some w
                /\ count w <= 15 /\ windowStart w = arrival first)
  /\ route handler (snd served) late =
       (Answered (handler (body late)),
        <[key := {| count := 1; windowStart := arrival late |}]> (snd served)).
Proof.
  intros Hall Hno Hin Hlate reqs served.
  apply Forall_cons in Hall as [Hfirst Hall].
  apply Forall_app in Hall as [Hrest Hl].
  apply Forall_cons in Hl as [Hl _].
  assert (Hserved : served =
    (List.map (fun r => Answered (handler (body r))) (take 15 reqs)
     ++ List.map (fun _ => Answered limited) (drop 15 reqs),
     <[key := {| count := N.min max (1 + N.of_nat (length rest));
                 windowStart := arrival first |}]> store)).
  { unfold served, reqs. cbn [serve].
    rewrite (route_opens_window _ _ Hfirst Hno).
    rewrite (serve_inside_window rest _ 1 (arrival first)).
    - rewrite insert_insert_eq. reflexivity.
    - apply lookup_insert_eq.
    - unfold max; lia.
    - apply Forall_and. split; assumption. }
  rewrite Hserved. cbn [fst snd].
  split; [reflexivity|]. split; [reflexivity|]. split; [reflexivity|].
  split.
  - eexists. rewrite lookup_insert_eq. split; [reflexivity|].
    cbn [count windowStart]. unfold max. split; [lia | reflexivity].
  - rewrite route_opens_window; [|exact Hl|].
    + rewrite insert_insert_eq. reflexivity.
    + unfold no_active_window. rewrite lookup_insert_eq. exact Hlate.
Qed.

End OneClient.

(** *** POST /generate-post *)

(** The try block succeeds exactly when the response object is there,
    has a [text] function, and calling it returns. *)
Lemma try_generate_success (o : upstream_outcome) (r : GenerationResult) :
  try_generate o = inr r <->
  exists raw b,
    o = Resolves (Some {| text := Some (TextReturns raw); blockReason := b |})
    /\ r = parse_response raw.
Proof.
  split.
  - destruct o as [e|[[[[raw|e]|] b]|]]; simpl; try discriminate.
    intros [= <-]. exists raw, b. split; reflexivity.
  - intros (raw & b & -> & ->). reflexivity.
Qed.

(** The catch block answers with one of two fixed replies. *)
Lemma catch_reply_fixed (e : js_error) :
  catch_reply e =
    (if is_quota_error e
     then {| status := 429; json := ErrorPayload QUOTA_MESSAGE |}
     else {| status := 500; json := ErrorPayload GENERIC_MESSAGE |}).
Proof. reflexivity. Qed.

(** What the response check throws for a response that is absent or
    has no [text]: a safety-filter block and an empty or invalid
    response get different details, and the caller gets the generic
    500. *)
Lemma missing_text_is_failure (up : upstream) (t : jsstring) (st : option jsstring)
    (response : option Response) :
  t <> [] ->
  up (getPromptForStyle t st) = Resolves response ->
  response ≫= text = None ->
  let h := generate_post up {| topic := Some t; style := st |} in
  status (sent h) <> 200
  /\ error_details h = [errorMessage response]
  /\ (errorMessage response = lit "The AI model returned an empty or invalid response."
      <-> falsy (response ≫= blockReason) = true).
Proof.
  intros Ht Hup Htext h. subst h. unfold generate_post. cbn [topic style].
  destruct t as [|c t]; [contradiction|]. rewrite Hup.
  assert (Htry : try_generate (Resolves response) = inl (Error (Some (errorMessage response)))).
  { destruct response as [[[call|] b]|]; simpl in *; [discriminate|reflexivity|reflexivity]. }
  rewrite Htry. cbn [sent error_details]. split; [|split].
  - rewrite catch_reply_fixed. destruct (is_quota_error _); simpl; discriminate.
  - unfold logged_detail. cbn [message]. unfold errorMessage.
    destruct (response ≫= blockReason) as [[|d r]|]; reflexivity.
  - unfold errorMessage, falsy.
    destruct (response ≫= blockReason) as [[|d r]|]; simpl;
      split; try reflexivity; try discriminate.
Qed.

(** C4 (the code departs from it).  An upstream response whose
    [text()] returns the empty string passes the response check, which
    only tests that the [text] function is there: the handler answers
    200 with an empty [responseText] and logs no error. *)
Theorem empty_text_body_answered_200 :
  let up : upstream :=
    fun _ => Resolves (Some {| text := Some (TextReturns []); blockReason := None |}) in
  let h := generate_post up {| topic := Some (lit "history of AI");
                               style := Some (lit "Simple") |} in
  sent h = {| status := 200;
              json := ResultPayload {| responseText := []; result_searchQueries := [] |} |}
  /\ error_details h = [].
Proof. split; reflexivity. Qed.

(** *** The prompt builder *)

(** Whatever the style, the prompt is a persona sentence, the
    formatting directive, and the topic between double quotes. *)
Lemma getPromptForStyle_embeds (topic : jsstring) (style : option jsstring) :
  exists persona,
    getPromptForStyle topic style =
      persona ++ formattingInstruction ++ lit " Topic: " ++ [DQUOTE] ++ topic ++ [DQUOTE].
Proof.
  unfold getPromptForStyle.
  repeat match goal with
         | |- context [if ?c then _ else _] => destruct c
         end; eexists; reflexivity.
Qed.

(** C5.  The prompt is a function of the topic and the style alone.
    Whatever the style, it is a persona sentence followed by the fixed
    formatting directive and by the topic, verbatim, between double
    quotes, so that the prompt includes both the topic and the directive;
    the directive carries the [SEARCH_QUERY:] instruction; and a
    style that is none of Professional, Casual, Simple, Creative (or no
    style at all) gives the default persona. *)
Theorem getPromptForStyle_shape (topic : jsstring) (style : option jsstring) :
  (exists persona,
      getPromptForStyle topic style =
        persona ++ formattingInstruction ++ lit " Topic: " ++ [DQUOTE] ++ topic ++ [DQUOTE])
  /\ includes (getPromptForStyle topic style) topic = true
  /\ includes (getPromptForStyle topic style) formattingInstruction = true
  /\ includes formattingInstruction
       (lit "Each query must be on a new line and prefixed with 'SEARCH_QUERY:'.") = true
  /\ (array_includes recognized_styles style = false ->
      getPromptForStyle topic style =
        lit "You are a helpful and knowledgeable AI assistant. Provide a detailed and informative answer for the following question or topic. "
        ++ formattingInstruction ++ lit " Topic: " ++ [DQUOTE] ++ topic ++ [DQUOTE]).
Proof.
  destruct (getPromptForStyle_embeds topic style) as [persona Hp].
  split; [|split; [|split; [|split]]].
  - exists persona. exact Hp.
  - rewrite Hp.
    replace (persona ++ formattingInstruction ++ lit " Topic: " ++ [DQUOTE] ++ topic ++ [DQUOTE])
      with ((persona ++ formattingInstruction ++ lit " Topic: " ++ [DQUOTE]) ++ topic ++ [DQUOTE])
      by (rewrite <- !app_assoc; reflexivity).
    apply includes_infix.
  - rewrite Hp. apply includes_infix.
  - vm_compute. reflexivity.
  - unfold getPromptForStyle, case_, array_includes, recognized_styles.
    destruct style as [s|]; [|reflexivity].
    cbn [existsb]. rewrite !orb_false_iff.
    unfold eqb_str. intros (H1 & H2 & H3 & H4 & _).
    apply bool_decide_eq_false in H1, H2, H3, H4.
    rewrite !bool_decide_eq_false_2 by congruence. reflexivity.
Qed.

(** *** POST /generate-suggestions *)

Section Suggestions.

(** The TypeError of the engine, whatever its wording. *)
Variable typeError : option Response -> js_error.

Local Abbreviation generate_suggestions := (Server.generate_suggestions typeError).
Local Abbreviation post_generate_suggestions := (Server.post_generate_suggestions typeError).

(** C6.  A query that is absent, or whose trimmed length is below
    three, is answered at once with an empty suggestions list and no
    prompt is sent upstream; nor is one sent when such a request comes
    through the whole route. *)
Theorem short_query_no_upstream (up : upstream) (query : option jsstring) :
  (query = None \/ exists q, query = Some q /\ (length (trim q) < 3)%nat) ->
  generate_suggestions up query =
    {| sent := {| status := 200; json := SuggestionsPayload [] |};
       upstream_calls := []; error_details := [] |}
  /\ forall store (req : Request (option jsstring)),
       body req = query ->
       match fst (post_generate_suggestions up store req) with
       | Answered h => upstream_calls h = []
       | CorsRejected _ => True
       end.
Proof.
  intros Hq.
  assert (Hh : generate_suggestions up query =
    {| sent := {| status := 200; json := SuggestionsPayload [] |};
       upstream_calls := []; error_details := [] |}).
  { destruct Hq as [->|(q & -> & Hlen)]; [reflexivity|].
    unfold Server.generate_suggestions.
    destruct (N.ltb_spec (N.of_nat (length (trim q))) 3) as [_|Hge]; [|lia].
    rewrite orb_true_r. reflexivity. }
  split; [exact Hh|].
  intros store req Hbody. unfold Server.post_generate_suggestions, route.
  destruct (corsOptions_origin (origin req)); [|exact I].
  destruct (check store (ip req) (arrival req)) as [[] store']; cbn [fst].
  - rewrite Hbody, Hh. reflexivity.
  - reflexivity.
Qed.

(** The try block succeeds exactly when the upstream hands over a text,
    and then gives the lines of the text that are not blank. *)
Lemma try_suggestions_success (o : upstream_outcome) (l : list jsstring) :
  try_suggestions typeError o = inr l <->
  exists t b,
    o = Resolves (Some {| text := Some (TextReturns t); blockReason := b |})
    /\ l = List.filter (fun s => negb (forallb isWhiteSpace s)) (split LF t).
Proof.
  assert (Hf : forall t,
    List.filter (fun s => negb (eqb_str (trim s) [])) (split LF t)
    = List.filter (fun s => negb (forallb isWhiteSpace s)) (split LF t)).
  { intros t. apply List.filter_ext. intros s.
    rewrite eqb_str_nil, trim_nil. reflexivity. }
  split.
  - destruct o as [e|[[[[t|e]|] b]|]]; simpl; try discriminate.
    intros [= <-]. exists t, b. split; [reflexivity | apply Hf].
  - intros (t & b & -> & ->). simpl. rewrite Hf. reflexivity.
Qed.

Lemma try_suggestions_failure (o : upstream_outcome) :
  (forall t b, o <> Resolves (Some {| text := Some (TextReturns t); blockReason := b |})) ->
  exists e, try_suggestions typeError o = inl e.
Proof.
  intros Hno. destruct o as [e|[[[[t|e]|] b]|]]; simpl; try (eexists; reflexivity).
  exfalso. exact (Hno t b eq_refl).
Qed.

(** Every way the handler can answer, by what the query is and what the
    upstream did. *)
Lemma generate_suggestions_reply (up : upstream) (query : option jsstring) :
  exists l calls details,
    generate_suggestions up query =
      {| sent := {| status := 200; json := SuggestionsPayload l |};
         upstream_calls := calls; error_details := details |}
    /\ ((query = None \/ exists q, query = Some q /\ (length (trim q) < 3)%nat) ->
        l = [] /\ calls = [] /\ details = [])
    /\ (forall q, query = Some q -> (3 <= length (trim q))%nat ->
          calls = [suggestions_prompt q]
          /\ (forall t b,
                up (suggestions_prompt q)
                  = Resolves (Some {| text := Some (TextReturns t); blockReason := b |}) ->
                l = List.filter (fun s => negb (forallb isWhiteSpace s)) (split LF t)
                /\ details = [])
          /\ ((forall t b,
                 up (suggestions_prompt q)
                   <> Resolves (Some {| text := Some (TextReturns t); blockReason := b |})) ->
              l = [] /\ exists d, details = [d])).
Proof.
  unfold Server.generate_suggestions. destruct query as [q|].
  2:{ exists [], [], []. split; [reflexivity|]. split; [intros _; repeat split|].
      intros q [=]. }
  destruct (N.ltb_spec (N.of_nat (length (trim q))) 3) as [Hlt|Hge].
  { rewrite orb_true_r. exists [], [], []. split; [reflexivity|].
    split; [intros _; repeat split|]. intros q' [= <-] Hlen. lia. }
  assert (Hq : falsy (Some q) = false).
  { destruct q as [|c q]; [simpl in Hge; lia | reflexivity]. }
  rewrite Hq. cbn [orb].
  destruct (try_suggestions typeError (up (suggestions_prompt q))) as [e|l] eqn:Htry.
  - eexists _, _, _. split; [reflexivity|]. split.
    + intros [H|(q' & [= <-] & Hlen)]; [discriminate | lia].
    + intros q' [= <-] _. split; [reflexivity|]. split.
      * intros t b Hup. rewrite Hup in Htry. discriminate Htry.
      * intros _. split; [reflexivity | eexists; reflexivity].
  - eexists _, _, _. split; [reflexivity|]. split.
    + intros [H|(q' & [= <-] & Hlen)]; [discriminate | lia].
    + intros q' [= <-] _. split; [reflexivity|].
      apply try_suggestions_success in Htry as (t & b & Hup & ->). split.
      * intros t' b' Hup'. rewrite Hup in Hup'. injection Hup' as <- _.
        split; reflexivity.
      * intros Hno. exfalso. exact (Hno t b Hup).
Qed.

(** C7, as the code has it.  A request to POST /generate-suggestions
    whose query is a string, or absent, is stopped by the cors check when
    its origin is not allowed, and answered 429 by the limiter when the
    limiter rejects it.  Otherwise the handler answers, always 200 with a
    suggestions list and never an error payload: the empty list and no
    upstream call for an absent query or one of trimmed length below
    three; for a longer query one prompt is sent, and the list is the lines
    of the upstream text, in order, without the empty and the
    white-space-only ones, when the upstream hands over a text, and the
    empty list, with the error logged, on every upstream failure. *)
Theorem suggestions_handler_never_errors (up : upstream)
    (store : gmap jsstring RateWindow) (req : Request (option jsstring)) :
  let o := fst (post_generate_suggestions up store req) in
  (corsOptions_origin (origin req) <> CorsAllow ->
   o = CorsRejected (Error (Some (lit "Not allowed by CORS"))))
  /\ (corsOptions_origin (origin req) = CorsAllow ->
      fst (check store (ip req) (arrival req)) = Reject ->
      o = Answered
            {| sent := {| status := 429;
                          json := ErrorPayload
                            (lit "Too many requests from this IP, please try again after 5 minutes.") |};
               upstream_calls := []; error_details := [] |})
  /\ (corsOptions_origin (origin req) = CorsAllow ->
      fst (check store (ip req) (arrival req)) = Admit ->
      exists l calls details,
        o = Answered
              {| sent := {| status := 200; json := SuggestionsPayload l |};
                 upstream_calls := calls; error_details := details |}
        /\ ((body req = None
             \/ exists q, body req = Some q /\ (length (trim q) < 3)%nat) ->
            l = [] /\ calls = [] /\ details = [])
        /\ (forall q, body req = Some q -> (3 <= length (trim q))%nat ->
              calls = [suggestions_prompt q]
              /\ (forall t b,
                    up (suggestions_prompt q)
                      = Resolves (Some {| text := Some (TextReturns t); blockReason := b |}) ->
                    l = List.filter (fun s => negb (forallb isWhiteSpace s)) (split LF t)
                    /\ details = [])
              /\ ((forall t b,
                     up (suggestions_prompt q)
                       <> Resolves (Some {| text := Some (TextReturns t);
                                            blockReason := b |})) ->
                  l = [] /\ exists d, details = [d]))).
Proof.
  intros o. subst o. unfold Server.post_generate_suggestions, route.
  split; [|split].
  - intros Hno. unfold corsOptions_origin in *.
    destruct (_ || _); [contradiction | reflexivity].
  - intros -> Hrej.
    destruct (check store (ip req) (arrival req)) as [[] store']; cbn [fst] in *;
      [discriminate | reflexivity].
  - intros -> Hadm.
    destruct (check store (ip req) (arrival req)) as [[] store']; cbn [fst] in *;
      [|discriminate].
    destruct (generate_suggestions_reply up (body req)) as (l & calls & details & -> & H).
    exists l, calls, details. split; [reflexivity | exact H].
Qed.

End Suggestions.

(** C7 is not what the route does: the sixteenth request a client
    sends to /generate-suggestions inside one window is answered 429
    with an error payload. *)
Lemma suggestions_sixteenth_is_429 :
  let up : upstream :=
    fun _ => Resolves (Some {| text := Some (TextReturns (lit "history of AI"));
                               blockReason := None |}) in
  let req : Request (option jsstring) :=
    {| origin := None; ip := lit "203.0.113.7"; arrival := 0;
       body := Some (lit "history") |} in
  let typeError : option Response -> js_error :=
    fun _ => Error (Some (lit "response.text is not a function")) in
  let store := snd (serve (generate_suggestions typeError up) ∅ (replicate 15 req)) in
  fst (post_generate_suggestions typeError up store req) =
    Answered
      {| sent := {| status := 429;
                    json := ErrorPayload
                      (lit "Too many requests from this IP, please try again after 5 minutes.") |};
         upstream_calls := []; error_details := [] |}.
Proof. vm_compute. reflexivity. Qed.

(** *** The cors origin check *)

(** C9 is not what the check does: a request without an Origin header
    is admitted, though no origin of the list is its own. *)
Lemma cors_admits_absent_origin :
  corsOptions_origin None = CorsAllow
  /\ array_includes allowedOrigins None = false.
Proof. split; reflexivity. Qed.

Lemma array_includes_In (a : list jsstring) (o : jsstring) :
  array_includes a (Some o) = true <-> In o a.
Proof.
  unfold array_includes. rewrite List.existsb_exists. split.
  - intros (x & Hx & Heq). apply bool_decide_eq_true in Heq. subst. exact Hx.
  - intros Hin. exists o. split; [exact Hin | apply bool_decide_eq_true; reflexivity].
Qed.

(** C9, as the code has it.  The origin check admits a request exactly
    when it carries no Origin (none, or an empty one) or its Origin is
    one of the three listed; any other Origin gets the error
    "Not allowed by CORS", and the request stops there: neither the
    limiter nor a route handler sees it. *)
Theorem cors_admits_absent_or_listed (o : option jsstring) :
  (corsOptions_origin o = CorsAllow <->
     o = None \/ o = Some [] \/ exists s, o = Some s /\ In s allowedOrigins)
  /\ (corsOptions_origin o <> CorsAllow ->
      corsOptions_origin o = CorsError (Error (Some (lit "Not allowed by CORS")))
      /\ forall B (handler : B -> handled) store (req : Request B),
           origin req = o ->
           route handler store req
           = (CorsRejected (Error (Some (lit "Not allowed by CORS"))), store)).
Proof.
  split.
  - unfold corsOptions_origin. destruct o as [[|c s]|]; cbn [falsy is_empty orb].
    + split; [intros _; right; left; reflexivity | reflexivity].
    + destruct (array_includes _ _) eqn:Hin.
      * split; [|reflexivity]. intros _. right; right.
        exists (c :: s). split; [reflexivity | apply array_includes_In; exact Hin].
      * split; [discriminate|].
        intros [H|[H|(s' & [= <-] & H)]]; try discriminate.
        apply array_includes_In in H. congruence.
    + split; [intros _; left; reflexivity | reflexivity].
  - intros Hno.
    assert (Herr : corsOptions_origin o = CorsError (Error (Some (lit "Not allowed by CORS")))).
    { unfold corsOptions_origin in *. destruct (_ || _); [contradiction | reflexivity]. }
    split; [exact Herr|].
    intros B handler store req Ho. unfold route. rewrite Ho, Herr. reflexivity.
Qed.

(** *** The topic guard *)

(** C10.  The handler of POST /generate-post answers 400 exactly when
    the topic is absent or the empty string.  Any other topic, a
    white-space-only one included, is put between the quotes at the end
    of the prompt, and that prompt is sent upstream; so it is for a
    topic of one space. *)
Theorem whitespace_topic_passes (up : upstream) (body : PostBody) :
  (status (sent (generate_post up body)) = 400 <->
     topic body = None \/ topic body = Some [])
  /\ (forall t, topic body = Some t -> t <> [] ->
        upstream_calls (generate_post up body) = [getPromptForStyle t (style body)]
        /\ exists pre,
             getPromptForStyle t (style body) = pre ++ [DQUOTE] ++ t ++ [DQUOTE])
  /\ forallb isWhiteSpace (lit " ") = true
  /\ upstream_calls (generate_post up {| topic := Some (lit " "); style := style body |})
     = [getPromptForStyle (lit " ") (style body)]
  /\ status (sent (generate_post up {| topic := Some (lit " "); style := style body |}))
     <> 400.
Proof.
  assert (Hpass : forall t st, t <> [] ->
    upstream_calls (generate_post up {| topic := Some t; style := st |})
      = [getPromptForStyle t st]
    /\ status (sent (generate_post up {| topic := Some t; style := st |})) <> 400).
  { intros [|c t] st Ht; [contradiction|]. unfold generate_post. cbn [topic style].
    destruct (try_generate _) as [e|r]; cbn [sent upstream_calls status].
    - split; [reflexivity|]. rewrite catch_reply_fixed.
      destruct (is_quota_error e); simpl; discriminate.
    - split; [reflexivity | discriminate]. }
  split; [|split; [|split; [|split]]].
  - destruct body as [[[|c t]|] st]; cbn [topic].
    + split; [intros _; right; reflexivity | reflexivity].
    + split.
      * intros H. exfalso. revert H. apply (Hpass (c :: t) st). discriminate.
      * intros [H|H]; discriminate.
    + split; [intros _; left; reflexivity | reflexivity].
  - intros t Ht Hne. destruct body as [tp st]. cbn [topic style] in *. subst tp.
    split; [apply Hpass; exact Hne|].
    destruct (getPromptForStyle_embeds t st) as [persona Hp].
    exists (persona ++ formattingInstruction ++ lit " Topic: ").
    rewrite Hp, <- !app_assoc. reflexivity.
  - reflexivity.
  - apply Hpass. discriminate.
  - apply Hpass. discriminate.
Qed.

(** *** The statements above at concrete requests *)

Lemma limiter_fifteen_per_window_witness :
  let up : upstream := fun _ => Rejects (Error (Some (lit "fetch failed"))) in
  let req (t : N) : Request PostBody :=
    {| origin := Some (lit "http://localhost:5500"); ip := lit "203.0.113.7";
       arrival := t;
       body := {| topic := Some (lit "history of AI"); style := Some (lit "Simple") |} |} in
  let rest := List.map req [1000; 2000; 3000; 4000; 5000; 6000; 7000; 8000; 9000;
                            10000; 11000; 12000; 13000; 14000; 299999; 299999] in
  List.map (fun o => match o with
                     | Answered h => status (sent h)
                     | CorsRejected _ => 0
                     end)
    (fst (serve (generate_post up) ∅ (req 0 :: rest)))
  = replicate 15 500 ++ [429; 429]
  /\ fst (route (generate_post up) (snd (serve (generate_post up) ∅ (req 0 :: rest))) (req 300000))
     = Answered (generate_post up (body (req 300000))).
Proof.
  intros up req rest.
  destruct (limiter_fifteen_per_window (generate_post up) (lit "203.0.113.7")
              ∅ (req 0) rest (req 300000)) as (Hout & _ & _ & _ & Hlate).
  - repeat constructor.
  - exact I.
  - repeat constructor.
  - vm_compute. discriminate.
  - split.
    + rewrite Hout. vm_compute. reflexivity.
    + rewrite Hlate. reflexivity.
Defined.

Lemma getPromptForStyle_shape_witness :
  getPromptForStyle (lit "history of AI") (Some (lit "Poetic"))
  = lit "You are a helpful and knowledgeable AI assistant. Provide a detailed and informative answer for the following question or topic. "
    ++ formattingInstruction ++ lit " Topic: " ++ [DQUOTE] ++ lit "history of AI" ++ [DQUOTE].
Proof.
  destruct (getPromptForStyle_shape (lit "history of AI") (Some (lit "Poetic")))
    as (_ & _ & _ & _ & H).
  apply H. reflexivity.
Defined.

Lemma short_query_no_upstream_witness :
  let typeError : option Response -> js_error :=
    fun _ => Error (Some (lit "response.text is not a function")) in
  let up : upstream := fun _ => Rejects (Error None) in
  generate_suggestions typeError up (Some (lit "  ai  ")) =
    {| sent := {| status := 200; json := SuggestionsPayload [] |};
       upstream_calls := []; error_details := [] |}.
Proof.
  intros typeError up.
  apply (short_query_no_upstream typeError up (Some (lit "  ai  "))).
  right. exists (lit "  ai  "). split; [reflexivity|]. vm_compute. lia.
Defined.

Lemma suggestions_handler_never_errors_witness :
  let typeError : option Response -> js_error :=
    fun _ => Error (Some (lit "response.text is not a function")) in
  let answers : upstream :=
    fun _ => Resolves (Some {| text := Some (TextReturns
                                 (join LF [lit "history of AI"; lit "  "; lit " history of art"]));
                               blockReason := None |}) in
  let fails : upstream := fun _ => Rejects (Error (Some (lit "503 Service Unavailable"))) in
  let req : Request (option jsstring) :=
    {| origin := None; ip := lit "203.0.113.7"; arrival := 0;
       body := Some (lit "history") |} in
  fst (post_generate_suggestions typeError answers ∅ req) =
    Answered
      {| sent := {| status := 200;
                    json := SuggestionsPayload [lit "history of AI"; lit " history of art"] |};
         upstream_calls := [suggestions_prompt (lit "history")]; error_details := [] |}
  /\ exists d,
       fst (post_generate_suggestions typeError fails ∅ req) =
         Answered
           {| sent := {| status := 200; json := SuggestionsPayload [] |};
              upstream_calls := [suggestions_prompt (lit "history")];
              error_details := [d] |}.
Proof.
  intros typeError answers fails req. split.
  - destruct (suggestions_handler_never_errors typeError answers ∅ req)
      as (_ & _ & H).
    destruct H as (l & calls & details & -> & _ & H); [reflexivity | reflexivity |].
    destruct (H (lit "history")) as (-> & Hok & _); [reflexivity | vm_compute; lia |].
    destruct (Hok (join LF [lit "history of AI"; lit "  "; lit " history of art"]) None)
      as [-> ->]; [reflexivity|]. reflexivity.
  - destruct (suggestions_handler_never_errors typeError fails ∅ req)
      as (_ & _ & H).
    destruct H as (l & calls & details & -> & _ & H); [reflexivity | reflexivity |].
    destruct (H (lit "history")) as (-> & _ & Hfail); [reflexivity | vm_compute; lia |].
    destruct Hfail as [-> [d ->]]; [intros t b; discriminate|].
    exists d. reflexivity.
Defined.

Lemma cors_admits_absent_or_listed_witness :
  corsOptions_origin (Some (lit "https://example.org"))
  = CorsError (Error (Some (lit "Not allowed by CORS"))).
Proof.
  destruct (cors_admits_absent_or_listed (Some (lit "https://example.org")))
    as [_ H].
  apply H. vm_compute. discriminate.
Defined.

Lemma whitespace_topic_passes_witness :
  let up : upstream := fun _ => Rejects (Error None) in
  upstream_calls (generate_post up {| topic := Some (lit " "); style := None |})
  = [getPromptForStyle (lit " ") None].
Proof.
  intros up.
  destruct (whitespace_topic_passes up {| topic := Some (lit " "); style := None |})
    as (_ & H & _).
  apply (H (lit " ")); [reflexivity | discriminate].
Defined.

End ServerSpec.

(* ===================================================================== *)
(** ** Facts about the search links *)
(* ===================================================================== *)

Module LinkFacts.

Import Server Client.

Lemma encodeURIComponent_throws (n : nat) :
  forall s, (length s <= n)%nat ->
    encodeURIComponent s = None <-> isWellFormed s = false.
Proof.
  induction n as [|n IH]; intros s Hlen.
  - destruct s; [|simpl in Hlen; lia]. simpl. split; discriminate.
  - destruct s as [|c rest]; [simpl; split; discriminate|].
    simpl in Hlen. cbn [encodeURIComponent isWellFormed].
    assert (Hmap : forall (f : jsstring -> jsstring) r, (length r <= n)%nat ->
              option_map f (encodeURIComponent r) = None <-> isWellFormed r = false).
    { intros f r Hr. rewrite <- (IH r Hr).
      destruct (encodeURIComponent r); simpl; split; congruence. }
    destruct (isUnreserved c) eqn:Hu.
    { assert (Hns : isLowSurrogate c = false /\ isHighSurrogate c = false).
      { unfold isUnreserved, isLowSurrogate, isHighSurrogate in *.
        split; apply andb_false_iff;
          destruct (N.leb_spec 55296 c); destruct (N.leb_spec 56320 c); auto;
          exfalso; revert Hu;
          repeat match goal with
                 | |- context [N.leb ?a ?b] => destruct (N.leb_spec a b); try lia
                 | |- context [N.eqb ?a ?b] => destruct (N.eqb_spec a b); try lia
                 end; simpl; discriminate. }
      destruct Hns as [-> ->]. apply Hmap. lia. }
    destruct (isLowSurrogate c); [split; reflexivity|].
    destruct (isHighSurrogate c).
    + destruct rest as [|d rest']; [split; reflexivity|].
      destruct (isLowSurrogate d); [|split; reflexivity].
      cbn [andb]. apply Hmap. simpl in Hlen. lia.
    + apply Hmap. lia.
Qed.

Lemma encodeURIComponent_wellFormed (q : jsstring) :
  encodeURIComponent q = None <-> isWellFormed q = false.
Proof. apply (encodeURIComponent_throws (length q)). apply le_n. Qed.

(** The loop over well-formed queries runs to its end, one link per query. *)
Lemma appendLinks_wellFormed (qs : list jsstring) :
  forallb isWellFormed qs = true ->
  exists links, appendLinks qs = (links, true) /\ List.map textContent links = qs.
Proof.
  induction qs as [|q qs IH]; cbn [forallb appendLinks]; intros Hall.
  - exists []. split; reflexivity.
  - apply andb_true_iff in Hall as [Hq Hqs].
    destruct (IH Hqs) as (links & Hl & Ht). unfold searchLink.
    destruct (encodeURIComponent q) as [e|] eqn:He.
    + rewrite Hl. eexists. split; [reflexivity|]. cbn [List.map textContent]. f_equal. exact Ht.
    + apply encodeURIComponent_wellFormed in He. congruence.
Qed.


Lemma renderSearchQueries_wellFormed (queries : option (list jsstring)) :
  forallb isWellFormed (queries_of queries) = true ->
  renderSearchQueries queries
  = Rendered (queries_of queries) (negb (Nat.eqb (length (queries_of queries)) 0)).
Proof.
  destruct queries as [[|q qs]|]; cbn [queries_of]; intros Hall; try reflexivity.
  destruct (appendLinks_wellFormed (q :: qs) Hall) as (links & Hl & Ht).
  unfold renderSearchQueries. rewrite Hl, Ht. reflexivity.
Qed.


End LinkFacts.

(* ===================================================================== *)
(** ** The orchestrator's contract *)
(* ===================================================================== *)

Module ClientSpec.

Import Server Client LinkFacts.

Section Engine.

(** The engine's URIError and the behaviour of the storage, whatever
    they are. *)
Variable uriError : js_error.
Variable setItem : list HistoryEntry -> option js_error.

Local Abbreviation handleGeneration := (Client.handleGeneration uriError setItem).

(** A regeneration never touches the history, nor its stored copy,
    however the fetch goes. *)
Lemma regeneration_frame fetch now (st : State) :
  let st' := fst (handleGeneration fetch now true st) in
  history st' = history st /\ saved_history st' = saved_history st.
Proof.
  unfold Client.handleGeneration.
  destruct (is_empty _); [split; reflexivity|].
  destruct (try_fetch _) as [e|data]; cbn [fst negb].
  - split; reflexivity.
  - destruct (renderSearchQueries _); split; reflexivity.
Qed.

(** A regeneration saves nothing: what the storage would do is of no
    consequence to it. *)
Lemma regeneration_ignores_storage (other : list HistoryEntry -> option js_error)
    fetch now (st : State) :
  handleGeneration fetch now true st = Client.handleGeneration uriError other fetch now true st.
Proof.
  unfold Client.handleGeneration.
  destruct (is_empty _); [reflexivity|].
  destruct (try_fetch _) as [e|data]; [reflexivity|].
  destruct (renderSearchQueries _); reflexivity.
Qed.




End Engine.


End ClientSpec.

(* ===================================================================== *)
(** ** More facts about the string methods *)
(* ===================================================================== *)

Module JsStringMore.

Import JsStringFacts.

Lemma trimStart_fixed s :
  match s with c :: _ => isWhiteSpace c = false | [] => True end -> trimStart s = s.
Proof. destruct s as [|c r]; simpl; [reflexivity|]. intros ->. reflexivity. Qed.

(** Trimming twice is trimming once. *)
Lemma trim_idem s : trim (trim s) = trim s.
Proof.
  assert (Hs : trimStart (trim s) = trim s).
  { apply trimStart_fixed. destruct (trim s) as [|c r] eqn:E; [exact I|].
    eapply trim_first. exact E. }
  unfold trim at 1. rewrite Hs. unfold trimEnd, trim, trimEnd.
  rewrite rev_involutive, trimStart_idem. reflexivity.
Qed.

(** What [trim] returns is a piece of its argument. *)
Lemma trim_In s c : In c (trim s) -> In c s.
Proof.
  destruct (trim_decompose s) as (pre & post & Hs & _).
  intros Hin. rewrite Hs. apply in_or_app. right. apply in_or_app. left. exact Hin.
Qed.

Lemma split_line sep l : ~ In sep l -> split sep l = [l].
Proof.
  induction l as [|c l IH]; simpl; [reflexivity|]. intros Hn.
  destruct (N.eqb_spec c sep) as [->|Hne]; [exfalso; apply Hn; left; reflexivity|].
  rewrite IH; [reflexivity|]. intros H. apply Hn. right. exact H.
Qed.

Lemma split_app sep a b : split sep (a ++ sep :: b) = split sep a ++ split sep b.
Proof.
  induction a as [|c a IH]; simpl.
  - rewrite N.eqb_refl. reflexivity.
  - destruct (c =? sep); [rewrite IH; reflexivity|].
    rewrite IH. pose proof (split_nonempty sep a) as Hn.
    destruct (split sep a) as [|l ls]; [contradiction | reflexivity].
Qed.

(** Lines without a separator, joined and split again, are the same lines. *)
Lemma split_join sep (ls : list jsstring) :
  ls <> [] -> Forall (fun l => ~ In sep l) ls -> split sep (join sep ls) = ls.
Proof.
  induction ls as [|l ls IH]; intros Hne Hall; [contradiction|].
  apply Forall_cons in Hall as [Hl Hls].
  destruct ls as [|l2 ls].
  - simpl. apply split_line. exact Hl.
  - change (join sep (l :: l2 :: ls)) with (l ++ sep :: join sep (l2 :: ls)).
    rewrite split_app, (split_line _ _ Hl), IH; [reflexivity|discriminate|exact Hls].
Qed.

(** A pattern cannot straddle a code unit it does not contain. *)
Lemma startsWith_stop (x : code_unit) (p a b : jsstring) :
  ~ In x p -> startsWith (a ++ x :: b) p = startsWith a p.
Proof.
  revert a; induction p as [|d p IH]; intros a Hx; [reflexivity|].
  destruct a as [|c a]; simpl.
  - destruct (N.eqb_spec d x) as [->|_]; [exfalso; apply Hx; left; reflexivity | reflexivity].
  - rewrite IH; [reflexivity|]. intros H. apply Hx. right. exact H.
Qed.

Lemma includes_stop (x : code_unit) (p a b : jsstring) :
  p <> [] -> ~ In x p ->
  includes (a ++ x :: b) p = includes a p || includes b p.
Proof.
  intros Hp Hx. induction a as [|c a IH].
  - destruct p as [|d p]; [contradiction|]. simpl.
    destruct (N.eqb_spec d x) as [->|_]; [exfalso; apply Hx; left; reflexivity|].
    reflexivity.
  - change (includes ((c :: a) ++ x :: b) p)
      with (startsWith ((c :: a) ++ x :: b) p || includes (a ++ x :: b) p).
    rewrite (startsWith_stop x p (c :: a) b Hx), IH.
    simpl. rewrite orb_assoc. reflexivity.
Qed.

End JsStringMore.

(* ===================================================================== *)
(** ** More of the backend's behaviour *)
(* ===================================================================== *)

Module ServerMore.

Import Server JsStringFacts JsStringMore ServerSpec.

(** *** The response parser *)

(** The parser as a partition of the text's lines. *)
Lemma parse_response_lines (raw : jsstring) :
  parse_response raw =
    {| responseText :=
         trim (join LF (List.filter (fun l => negb (is_marker_line l)) (split LF raw)));
       result_searchQueries :=
         List.map (fun l => trim (skipn (length MARKER) l))
           (List.filter is_marker_line (split LF raw)) |}.
Proof.
  unfold parse_response, parse_lines. rewrite fold_parse_line. cbn [responseTextLines searchQueries app].
  f_equal. apply List.map_ext_in. intros l Hl.
  apply List.filter_In in Hl as [_ Hl]. rewrite (replace_prefix _ _ Hl). reflexivity.
Qed.

Lemma filter_none {A} (f : A -> bool) (l : list A) :
  Forall (fun x => f x = false) l -> List.filter f l = [].
Proof.
  induction l as [|x l IH]; intros H; [reflexivity|].
  apply Forall_cons in H as [Hx Hl]. simpl. rewrite Hx. apply IH. exact Hl.
Qed.

Lemma filter_all {A} (f : A -> bool) (l : list A) :
  Forall (fun x => f x = true) l -> List.filter f l = l.
Proof.
  induction l as [|x l IH]; intros H; [reflexivity|].
  apply Forall_cons in H as [Hx Hl]. simpl. rewrite Hx, IH; [reflexivity | exact Hl].
Qed.

(** X1.  A text none of whose lines begins with [SEARCH_QUERY:] comes
    back whole: [responseText] is the text trimmed, and there is no
    search query. *)
Theorem parse_without_marker (raw : jsstring) :
  Forall (fun l => is_marker_line l = false) (split LF raw) ->
  parse_response raw = {| responseText := trim raw; result_searchQueries := [] |}.
Proof.
  intros Hno. rewrite parse_response_lines.
  rewrite (filter_none _ _ Hno), filter_all, join_split; [reflexivity|].
  eapply Forall_impl; [exact Hno|]. intros l Hl. simpl in Hl. rewrite Hl. reflexivity.
Qed.

Lemma parse_without_marker_witness :
  parse_response (lit "  AI began in the 1950s. See SEARCH_QUERY: later. ")
  = {| responseText := lit "AI began in the 1950s. See SEARCH_QUERY: later.";
       result_searchQueries := [] |}.
Proof.
  rewrite parse_without_marker; [reflexivity|].
  repeat constructor.
Defined.

(** X2.  Whatever the upstream text, every search query of the result
    is already trimmed and holds no line feed, and [responseText] is
    already trimmed. *)
Theorem parsed_fields_are_trimmed (raw : jsstring) :
  Forall (fun q => trim q = q /\ ~ In LF q) (result_searchQueries (parse_response raw))
  /\ trim (responseText (parse_response raw)) = responseText (parse_response raw).
Proof.
  rewrite parse_response_lines. cbn [responseText result_searchQueries]. split.
  - apply List.Forall_forall. intros q Hq.
    apply List.in_map_iff in Hq as (l & <- & Hl).
    apply List.filter_In in Hl as [Hl _].
    split; [apply trim_idem|].
    intros Hin. apply trim_In in Hin.
    pose proof (split_no_sep LF raw) as Hsep.
    rewrite List.Forall_forall in Hsep. apply (Hsep l Hl).
    clear -Hin. revert Hin. generalize (length MARKER). intros n.
    revert l; induction n as [|n IH]; intros [|c l]; simpl; intros H; auto.
  - apply trim_idem.
Qed.

(** The text the prompt asks for, read back: body lines, then one
    marker line per query. *)
Lemma parse_joined_lines (ls : list jsstring) :
  ls <> [] -> Forall (fun l => ~ In LF l) ls ->
  parse_response (join LF ls) =
    {| responseText := trim (join LF (List.filter (fun l => negb (is_marker_line l)) ls));
       result_searchQueries :=
         List.map (fun l => trim (skipn (length MARKER) l)) (List.filter is_marker_line ls) |}.
Proof.
  intros Hne Hall. rewrite parse_response_lines, (split_join LF ls Hne Hall). reflexivity.
Qed.

(** X3.  Round trip of the format the prompt asks for.  Take body lines,
    none beginning with the marker, and queries, all free of line feeds;
    write the body lines and then each query behind [SEARCH_QUERY:], one
    per line.  Parsing that text gives back the body (joined, trimmed) and
    the queries (each trimmed), in order. *)
Theorem parse_formatted_text (body : list jsstring) (queries : list jsstring) :
  body <> [] ->
  Forall (fun l => ~ In LF l) body ->
  Forall (fun l => is_marker_line l = false) body ->
  Forall (fun q => ~ In LF q) queries ->
  parse_response (join LF (body ++ List.map (app MARKER) queries)) =
    {| responseText := trim (join LF body);
       result_searchQueries := List.map trim queries |}.
Proof.
  intros Hne Hb Hnm Hq.
  rewrite parse_joined_lines.
  - rewrite !List.filter_app.
    rewrite (filter_none _ _ Hnm).
    rewrite (filter_all (fun l => negb (is_marker_line l)) body).
    2:{ eapply Forall_impl; [exact Hnm|]. intros l Hl. simpl in Hl. rewrite Hl. reflexivity. }
    rewrite (filter_all is_marker_line (List.map (app MARKER) queries)).
    2:{ apply List.Forall_forall. intros l Hl.
        apply List.in_map_iff in Hl as (q & <- & _). apply startsWith_app. }
    rewrite (filter_none (fun l => negb (is_marker_line l)) (List.map (app MARKER) queries)).
    2:{ apply List.Forall_forall. intros l Hl.
        apply List.in_map_iff in Hl as (q & <- & _).
        unfold is_marker_line. rewrite startsWith_app. reflexivity. }
    rewrite app_nil_r. cbn [app]. f_equal.
    rewrite List.map_map. apply List.map_ext. intros q.
    rewrite skipn_app, Nat.sub_diag, skipn_all. reflexivity.
  - destruct body; [contradiction | discriminate].
  - apply Forall_app. split; [exact Hb|].
    apply List.Forall_forall. intros l Hl.
    apply List.in_map_iff in Hl as (q & <- & Hin).
    rewrite List.Forall_forall in Hq. intros H.
    apply in_app_or in H as [H|H].
    + revert H. vm_compute. intuition discriminate.
    + exact (Hq q Hin H).
Qed.

Lemma parse_formatted_text_witness :
  parse_response
    (join LF ([lit "AI research began in the 1950s."; []; lit "* Turing test"]
              ++ List.map (app MARKER)
                   [lit " history of artificial intelligence"; lit " Alan Turing ";
                    lit " Dartmouth workshop 1956"]))
  = {| responseText := join LF [lit "AI research began in the 1950s."; []; lit "* Turing test"];
       result_searchQueries :=
         [lit "history of artificial intelligence"; lit "Alan Turing";
          lit "Dartmouth workshop 1956"] |}.
Proof.
  rewrite parse_formatted_text.
  - reflexivity.
  - discriminate.
  - repeat constructor; vm_compute; intuition discriminate.
  - repeat constructor.
  - repeat constructor; vm_compute; intuition discriminate.
Defined.

(** *** POST /generate-post *)

(** X4.  The handler of POST /generate-post writes an error detail to
    the console exactly when it answers 429 or 500, one detail per
    failure and never an empty one; a 200 or a 400 logs nothing. *)
Theorem generate_post_logs_failures (up : upstream) (body : PostBody) :
  let h := generate_post up body in
  ((status (sent h) = 200 \/ status (sent h) = 400) /\ error_details h = [])
  \/ ((status (sent h) = 429 \/ status (sent h) = 500)
      /\ exists d, error_details h = [d] /\ d <> []).
Proof.
  intros h. subst h. unfold generate_post.
  destruct (topic body) as [[|c t]|]; cbn [sent error_details status].
  1,3: left; split; [right; reflexivity | reflexivity].
  destruct (try_generate _) as [e|r]; cbn [sent error_details status].
  - right. split.
    + rewrite catch_reply_fixed. destruct (is_quota_error e); [left | right]; reflexivity.
    + exists (logged_detail e). split; [reflexivity|].
      unfold logged_detail. destruct (message e) as [[|d m]|]; discriminate.
  - left. split; [left; reflexivity | reflexivity].
Qed.

Lemma quota_in_block_message (reason : jsstring) :
  let m := lit "Request was blocked by the AI's safety filters. Reason: " ++ reason
           ++ lit ". Please try a different topic." in
  includes m (lit "429") || includes m (lit "quota")
  = includes reason (lit "429") || includes reason (lit "quota").
Proof.
  intros m. subst m.
  change (lit "Request was blocked by the AI's safety filters. Reason: ")
    with (lit "Request was blocked by the AI's safety filters. Reason:" ++ [32]).
  change (lit ". Please try a different topic.")
    with (46 :: lit " Please try a different topic.").
  rewrite <- app_assoc. cbn [app].
  assert (Hstop : forall p, p <> [] -> ~ In 32 p -> ~ In 46 p ->
            includes (lit "Request was blocked by the AI's safety filters. Reason:") p = false ->
            includes (lit " Please try a different topic.") p = false ->
            includes (lit "Request was blocked by the AI's safety filters. Reason:"
                      ++ 32 :: reason ++ 46 :: lit " Please try a different topic.") p
            = includes reason p).
  { intros p Hp H32 H46 Hpre Hpost.
    rewrite (includes_stop 32 p _ _ Hp H32), (includes_stop 46 p _ _ Hp H46).
    rewrite Hpre, Hpost, orb_false_r. reflexivity. }
  rewrite !Hstop; try reflexivity; try discriminate;
    vm_compute; intuition discriminate.
Qed.

(** X5.  When the upstream response is absent or has no [text], the
    caller gets the generic 500, unless the block reason itself contains
    "429" or "quota": then the block is reported as 429, quota reached. *)
Theorem missing_text_status (up : upstream) (t : jsstring) (st : option jsstring)
    (response : option Response) :
  t <> [] ->
  up (getPromptForStyle t st) = Resolves response ->
  response ≫= text = None ->
  sent (generate_post up {| topic := Some t; style := st |}) =
    (if match response ≫= blockReason with
        | Some reason => includes reason (lit "429") || includes reason (lit "quota")
        | None => false
        end
     then {| status := 429; json := ErrorPayload QUOTA_MESSAGE |}
     else {| status := 500; json := ErrorPayload GENERIC_MESSAGE |}).
Proof.
  intros Ht Hup Htext. unfold generate_post. cbn [topic style].
  destruct t as [|c t]; [contradiction|]. rewrite Hup.
  assert (Htry : try_generate (Resolves response) = inl (Error (Some (errorMessage response)))).
  { destruct response as [[[call|] b]|]; simpl in *; [discriminate|reflexivity|reflexivity]. }
  rewrite Htry. cbn [sent]. unfold catch_reply, is_quota_error. cbn [message].
  unfold errorMessage.
  destruct (response ≫= blockReason) as [[|d r]|]; try reflexivity.
  rewrite quota_in_block_message.
  replace (is_empty _) with false by reflexivity. reflexivity.
Qed.

Lemma missing_text_status_witness :
  let up : upstream :=
    fun _ => Resolves (Some {| text := None; blockReason := Some (lit "SAFETY") |}) in
  sent (generate_post up {| topic := Some (lit "history of AI"); style := None |})
  = {| status := 500; json := ErrorPayload GENERIC_MESSAGE |}.
Proof.
  intros up.
  rewrite (missing_text_status up (lit "history of AI") None
             (Some {| text := None; blockReason := Some (lit "SAFETY") |}));
    [reflexivity | discriminate | reflexivity | reflexivity].
Defined.

(** *** The route of POST /generate-post *)

(** [includes] finds exactly the texts that occur. *)
Lemma includes_occurs (s p : jsstring) : includes s p = true <-> occurs_in p s.
Proof.
  split.
  - induction s as [|c s IH].
    + simpl. rewrite orb_false_r. intros H. apply startsWith_prefix in H.
      exists [], (skipn (length p) []). exact H.
    + cbn [includes]. intros H. apply orb_true_iff in H as [H|H].
      * apply startsWith_prefix in H. exists [], (skipn (length p) (c :: s)). exact H.
      * destruct (IH H) as (pre & post & ->). exists (c :: pre), post. reflexivity.
  - intros (pre & post & ->). apply includes_infix.
Qed.

(** The test of the catch block is the quota pattern of the claim. *)
Lemma is_quota_error_pattern (m : option jsstring) :
  is_quota_error (Error m) = true <-> quota_pattern m.
Proof.
  unfold is_quota_error, quota_pattern. cbn [message]. split.
  - destruct m as [s|]; [|discriminate]. intros H.
    apply andb_true_iff in H as [_ H]. apply orb_true_iff in H.
    exists s. split; [reflexivity|].
    destruct H as [H|H]; [left | right]; apply includes_occurs; exact H.
  - intros (s & -> & H).
    assert (Hi : includes s (lit "429") || includes s (lit "quota") = true).
    { apply orb_true_iff. destruct H as [H|H]; [left | right]; apply includes_occurs; exact H. }
    rewrite Hi, andb_true_r. destruct s; [discriminate Hi | reflexivity].
Qed.

(** The same test on the error the response check throws. *)
Lemma is_quota_error_missing_text (response : option Response) :
  is_quota_error (Error (Some (errorMessage response))) = true
  <-> quota_pattern (response ≫= blockReason).
Proof.
  rewrite <- is_quota_error_pattern. unfold is_quota_error, errorMessage. cbn [message].
  destruct (response ≫= blockReason) as [[|d r]|]; try (split; discriminate).
  rewrite quota_in_block_message.
  replace (is_empty (lit "Request was blocked by the AI's safety filters. Reason: "
                     ++ (d :: r) ++ lit ". Please try a different topic.")) with false
    by reflexivity.
  reflexivity.
Qed.

Lemma catch_reply_pattern (e : js_error) (m : option jsstring) :
  is_quota_error e = true <-> quota_pattern m ->
  (quota_pattern m ->
   catch_reply e =
     {| status := 429;
        json := ErrorPayload
          (lit "The daily API quota has been reached. Please try again tomorrow.") |})
  /\ (~ quota_pattern m ->
      catch_reply e =
        {| status := 500;
           json := ErrorPayload
             (lit "An unexpected server error occurred. Please check the server logs.") |}).
Proof.
  intros Hiff. rewrite catch_reply_fixed. split.
  - intros Hp. apply Hiff in Hp. rewrite Hp. reflexivity.
  - intros Hn. destruct (is_quota_error e); [|reflexivity].
    exfalso. apply Hn. apply Hiff. reflexivity.
Qed.

(** C3 is not what the route does: the sixteenth request a client sends
    to /generate-post inside one window is answered 429 with the limiter's
    own message, though its topic is there and the upstream would answer:
    the same request, admitted, gets 200. *)
Lemma generate_post_sixteenth_is_limited :
  let up : upstream :=
    fun _ => Resolves (Some {| text := Some (TextReturns (lit "AI began in the 1950s."));
                               blockReason := None |}) in
  let req : Request PostBody :=
    {| origin := None; ip := lit "203.0.113.7"; arrival := 0;
       body := {| topic := Some (lit "history of AI"); style := Some (lit "Simple") |} |} in
  let store := snd (serve (generate_post up) ∅ (replicate 15 req)) in
  fst (post_generate_post up store req) =
    Answered
      {| sent := {| status := 429;
                    json := ErrorPayload
                      (lit "Too many requests from this IP, please try again after 5 minutes.") |};
         upstream_calls := []; error_details := [] |}
  /\ fst (post_generate_post up ∅ req) =
       Answered
         {| sent := {| status := 200;
                       json := ResultPayload
                         {| responseText := lit "AI began in the 1950s.";
                            result_searchQueries := [] |} |};
            upstream_calls := [getPromptForStyle (lit "history of AI") (Some (lit "Simple"))];
            error_details := [] |}.
Proof. split; vm_compute; reflexivity. Qed.

(** C3, as the code has it.  A request to POST /generate-post that passes
    the cors check is answered in exactly one of five ways.  When the
    limiter rejects it: 429 with the limiter's message, nothing else being
    run.  When the limiter admits it: 400 with "Topic is required" and no
    upstream call for a topic that is absent or empty; otherwise one
    prompt is sent, and the answer is 200 with the parsed result when the
    upstream hands over a text, 429 with the fixed quota message when the
    error caught has a message in which "429" or "quota" occurs, and 500
    with the fixed generic message for every other error.  (For a response
    that is absent or has no text function, the error is the one the
    response check throws, in which "429" or "quota" occurs exactly when it
    does in the block reason.)  Every error payload is a fixed text:
    nothing of the exception reaches the caller. *)
Theorem generate_post_outcomes (up : upstream)
    (store : gmap jsstring apiLimiter.RateWindow) (req : Request PostBody) :
  corsOptions_origin (origin req) = CorsAllow ->
  exists h,
    fst (post_generate_post up store req) = Answered h
    /\ (fst (apiLimiter.check store (ip req) (arrival req)) = apiLimiter.Reject ->
        h = {| sent := {| status := 429;
                          json := ErrorPayload
                            (lit "Too many requests from this IP, please try again after 5 minutes.") |};
               upstream_calls := []; error_details := [] |})
    /\ (fst (apiLimiter.check store (ip req) (arrival req)) = apiLimiter.Admit ->
        ((topic (body req) = None \/ topic (body req) = Some []) ->
         sent h = {| status := 400; json := ErrorPayload (lit "Topic is required") |}
         /\ upstream_calls h = [])
        /\ (forall t, topic (body req) = Some t -> t <> [] ->
              let prompt := getPromptForStyle t (style (body req)) in
              upstream_calls h = [prompt]
              /\ (forall raw b,
                    up prompt
                      = Resolves (Some {| text := Some (TextReturns raw); blockReason := b |}) ->
                    sent h = {| status := 200; json := ResultPayload (parse_response raw) |})
              /\ (forall m,
                    (up prompt = Rejects (Error m)
                     \/ exists b,
                          up prompt
                            = Resolves (Some {| text := Some (TextThrows (Error m));
                                                blockReason := b |})) ->
                    (quota_pattern m ->
                     sent h =
                       {| status := 429;
                          json := ErrorPayload
                            (lit "The daily API quota has been reached. Please try again tomorrow.") |})
                    /\ (~ quota_pattern m ->
                        sent h =
                          {| status := 500;
                             json := ErrorPayload
                               (lit "An unexpected server error occurred. Please check the server logs.") |}))
              /\ (forall response,
                    up prompt = Resolves response -> response ≫= text = None ->
                    (quota_pattern (response ≫= blockReason) ->
                     sent h =
                       {| status := 429;
                          json := ErrorPayload
                            (lit "The daily API quota has been reached. Please try again tomorrow.") |})
                    /\ (~ quota_pattern (response ≫= blockReason) ->
                        sent h =
                          {| status := 500;
                             json := ErrorPayload
                               (lit "An unexpected server error occurred. Please check the server logs.") |})))).
Proof.
  intros Hcors. unfold post_generate_post, route. rewrite Hcors.
  destruct (apiLimiter.check store (ip req) (arrival req)) as [[] store']; cbn [fst].
  2:{ eexists. split; [reflexivity|]. split; [intros _; reflexivity | discriminate]. }
  exists (generate_post up (body req)). split; [reflexivity|].
  split; [discriminate|]. intros _.
  unfold generate_post. destruct (body req) as [tp sty]. cbn [topic style]. split.
  - intros [->| ->]; split; reflexivity.
  - intros t -> Hne. destruct t as [|c t]; [contradiction|]. cbv zeta.
    destruct (up (getPromptForStyle (c :: t) sty)) as [[m]|response] eqn:Hup;
      cbn [try_generate].
    + cbn [sent upstream_calls]. split; [reflexivity|]. split; [intros; discriminate|].
      split; [|intros; discriminate].
      intros m' [[= <-]|(b & [=])].
      apply catch_reply_pattern. apply is_quota_error_pattern.
    + destruct response as [[[[raw|[m]]|] b]|]; cbn [sent upstream_calls].
      * split; [reflexivity|]. split.
        { intros raw' b' [= <- _]. reflexivity. }
        split; [intros m [[=]|(b' & [=])]|].
        intros response [= <-]. discriminate.
      * split; [reflexivity|]. split; [intros; discriminate|]. split.
        { intros m' [[=]|(b' & [= <- _])].
          apply catch_reply_pattern. apply is_quota_error_pattern. }
        intros response [= <-]. discriminate.
      * split; [reflexivity|]. split; [intros; discriminate|].
        split; [intros m [[=]|(b' & [=])]|].
        intros response [= <-] _.
        apply catch_reply_pattern. apply is_quota_error_missing_text.
      * split; [reflexivity|]. split; [intros; discriminate|].
        split; [intros m [[=]|(b' & [=])]|].
        intros response [= <-] _.
        apply catch_reply_pattern. apply is_quota_error_missing_text.
Qed.

Lemma generate_post_outcomes_witness :
  let quota : upstream :=
    fun _ => Rejects (Error (Some (lit "[429 Too Many Requests] Resource has been exhausted"))) in
  let answers : upstream :=
    fun _ => Resolves (Some {| text := Some (TextReturns
                                 (join LF [lit "AI began in the 1950s.";
                                           lit "SEARCH_QUERY: Dartmouth workshop"]));
                               blockReason := None |}) in
  let req : Request PostBody :=
    {| origin := Some (lit "https://mindgpt-ai.vercel.app"); ip := lit "203.0.113.7";
       arrival := 0;
       body := {| topic := Some (lit "history of AI"); style := Some (lit "Simple") |} |} in
  (exists h, fst (post_generate_post quota ∅ req) = Answered h
             /\ sent h =
                  {| status := 429;
                     json := ErrorPayload
                       (lit "The daily API quota has been reached. Please try again tomorrow.") |})
  /\ (exists h, fst (post_generate_post answers ∅ req) = Answered h
                /\ sent h =
                     {| status := 200;
                        json := ResultPayload
                          {| responseText := lit "AI began in the 1950s.";
                             result_searchQueries := [lit "Dartmouth workshop"] |} |}).
Proof.
  intros quota answers req. split.
  - destruct (generate_post_outcomes quota ∅ req) as (h & Ho & _ & Hadm); [reflexivity|].
    exists h. split; [exact Ho|].
    destruct Hadm as [_ Hin]; [reflexivity|].
    destruct (Hin (lit "history of AI")) as (_ & _ & Herr & _); [reflexivity | discriminate|].
    destruct (Herr (Some (lit "[429 Too Many Requests] Resource has been exhausted")))
      as [Hq _]; [left; reflexivity|].
    apply Hq. eexists. split; [reflexivity|]. left.
    exists (lit "["), (lit " Too Many Requests] Resource has been exhausted"). reflexivity.
  - destruct (generate_post_outcomes answers ∅ req) as (h & Ho & _ & Hadm); [reflexivity|].
    exists h. split; [exact Ho|].
    destruct Hadm as [_ Hin]; [reflexivity|].
    destruct (Hin (lit "history of AI")) as (_ & Hok & _); [reflexivity | discriminate|].
    rewrite (Hok (join LF [lit "AI began in the 1950s."; lit "SEARCH_QUERY: Dartmouth workshop"])
               None); reflexivity.
Defined.

(** *** POST /generate-suggestions *)

Section Suggestions.

(** The TypeError of the engine, whatever its wording. *)
Variable typeError : option Response -> js_error.

Local Abbreviation generate_suggestions := (Server.generate_suggestions typeError).

Lemma filter_is_sublist {A} (f : A -> bool) (l : list A) : sublist (List.filter f l) l.
Proof.
  induction l as [|x l IH]; simpl; [constructor|].
  destruct (f x); [apply sublist_skip | apply sublist_cons]; exact IH.
Qed.

(** X6.  The suggestions returned are lines of the upstream text kept as
    they are (not trimmed): when the upstream hands over a text they are
    taken from its lines, in the lines' order, none of them blank and
    every non-blank line among them; none holds a line feed; and without
    such a text nothing is returned.  A prompt that is sent carries the
    query as it was posted, untrimmed. *)
Theorem suggestions_are_verbatim_lines (up : upstream) (query : option jsstring) :
  let h := generate_suggestions up query in
  exists l,
    json (sent h) = SuggestionsPayload l
    /\ Forall (fun s => forallb isWhiteSpace s = false /\ ~ In LF s) l
    /\ Forall (fun p => exists q, query = Some q /\ p = suggestions_prompt q
                                  /\ includes p q = true) (upstream_calls h)
    /\ (forall q t b,
          query = Some q -> (3 <= length (trim q))%nat ->
          up (suggestions_prompt q)
            = Resolves (Some {| text := Some (TextReturns t); blockReason := b |}) ->
          sublist l (split LF t)
          /\ forall s, In s (split LF t) -> forallb isWhiteSpace s = false -> In s l)
    /\ ((forall q t b,
           query = Some q -> (3 <= length (trim q))%nat ->
           up (suggestions_prompt q)
             <> Resolves (Some {| text := Some (TextReturns t); blockReason := b |})) ->
        l = []).
Proof.
  intros h. subst h.
  destruct (generate_suggestions_reply typeError up query)
    as (l & calls & details & -> & Hshort & Hlong).
  exists l. cbn [sent json upstream_calls]. split; [reflexivity|].
  assert (Hcases : (query = None \/ exists q, query = Some q /\ (length (trim q) < 3)%nat)
                   \/ exists q, query = Some q /\ (3 <= length (trim q))%nat).
  { destruct query as [q|]; [|left; left; reflexivity].
    destruct (Nat.lt_ge_cases (length (trim q)) 3);
      [left; right | right]; exists q; split; auto. }
  destruct Hcases as [Hs|(q & -> & Hlen)].
  - destruct (Hshort Hs) as (-> & -> & _).
    split; [constructor|]. split; [constructor|]. split; [|reflexivity].
    intros q t b Hq Hlen. exfalso.
    destruct Hs as [->|(q' & -> & Hlt)]; [discriminate|].
    injection Hq as <-. lia.
  - destruct (Hlong q eq_refl Hlen) as (-> & Hok & Hfail).
    assert (Hprompt : Forall (fun p => exists q0, Some q = Some q0 /\ p = suggestions_prompt q0
                                                 /\ includes p q0 = true)
                        [suggestions_prompt q]).
    { constructor; [|constructor]. exists q. repeat split.
      unfold suggestions_prompt. rewrite app_assoc. apply includes_infix. }
    assert (Hup : (exists t b, up (suggestions_prompt q)
                     = Resolves (Some {| text := Some (TextReturns t); blockReason := b |}))
                  \/ forall t b, up (suggestions_prompt q)
                     <> Resolves (Some {| text := Some (TextReturns t); blockReason := b |})).
    { destruct (up (suggestions_prompt q)) as [e|[[[[t|e]|] b]|]];
        try (right; intros; discriminate).
      left. exists t, b. reflexivity. }
    destruct Hup as [(t & b & Hup)|Hno].
    + destruct (Hok t b Hup) as [-> _].
      split.
      { apply List.Forall_forall. intros s Hs.
        apply List.filter_In in Hs as [Hin Hnb].
        split; [destruct (forallb isWhiteSpace s); [discriminate | reflexivity]|].
        pose proof (split_no_sep LF t) as Hsep. rewrite List.Forall_forall in Hsep.
        exact (Hsep s Hin). }
      split; [exact Hprompt|]. split.
      * intros q' t' b' [= <-] _ Hup'. rewrite Hup in Hup'. injection Hup' as <- _.
        split; [apply filter_is_sublist|].
        intros s Hin Hnb. apply List.filter_In. split; [exact Hin|].
        rewrite Hnb. reflexivity.
      * intros Hnone. exfalso. exact (Hnone q t b eq_refl Hlen Hup).
    + destruct (Hfail Hno) as [-> _].
      split; [constructor|]. split; [exact Hprompt|]. split; [|reflexivity].
      intros q' t b [= <-] _ Hup. exfalso. exact (Hno t b Hup).
Qed.

(** *** Upstream traffic *)

Lemma generate_post_one_call (up : upstream) (body : PostBody) :
  (length (upstream_calls (generate_post up body)) <= 1)%nat.
Proof.
  unfold generate_post. destruct (topic body) as [[|c t]|]; simpl; try lia.
  destruct (try_generate _); simpl; lia.
Qed.

Lemma generate_suggestions_one_call (up : upstream) (query : option jsstring) :
  (length (upstream_calls (generate_suggestions up query)) <= 1)%nat.
Proof.
  unfold Server.generate_suggestions. destruct query as [q|]; simpl; try lia.
  destruct (_ || _); simpl; try lia.
  destruct (try_suggestions _ _); simpl; lia.
Qed.

Lemma serve_prompts {B} (handler : B -> handled) :
  (forall b, (length (upstream_calls (handler b)) <= 1)%nat) ->
  forall (reqs : list (Request B)) store,
    (length (concat (List.map Page.prompts_of (fst (serve handler store reqs))))
     <= length reqs)%nat.
Proof.
  intros Hone. induction reqs as [|r rs IH]; intros store; [simpl; lia|].
  cbn [serve]. destruct (route handler store r) as [o store1] eqn:Hr.
  specialize (IH store1). destruct (serve handler store1 rs) as [os store2].
  cbn [fst List.map concat] in *. rewrite length_app.
  assert (Ho : (length (Page.prompts_of o) <= 1)%nat).
  { unfold route in Hr. destruct (corsOptions_origin (origin r)).
    - destruct (apiLimiter.check store (ip r) (arrival r)) as [[] s1];
        injection Hr as <- _; simpl; [apply Hone | lia].
    - injection Hr as <- _. simpl. lia. }
  cbn [length]. lia.
Qed.

(** X7.  No retries and no fan-out: over any sequence of requests to
    either endpoint, whatever the upstream does, the prompts sent upstream
    are at most as many as the requests. *)
Theorem upstream_calls_bounded (up : upstream)
    (store : gmap jsstring apiLimiter.RateWindow)
    (posts : list (Request PostBody)) (queries : list (Request (option jsstring))) :
  (length (concat (List.map Page.prompts_of (fst (serve (generate_post up) store posts))))
   <= length posts)%nat
  /\ (length (concat (List.map Page.prompts_of
                        (fst (serve (generate_suggestions up) store queries))))
      <= length queries)%nat.
Proof.
  split; apply serve_prompts; intros b;
    [apply generate_post_one_call | apply generate_suggestions_one_call].
Qed.

(** A truthy [query] that is no string makes the handler throw before
    its try block: no reply of its own, no prompt, nothing logged.  Every
    other value is answered. *)
Lemma generate_suggestions_posted_throws (up : upstream) (query : posted_query) :
  generate_suggestions_posted typeError up query = None <-> query = QueryTruthy.
Proof. destruct query; simpl; split; congruence. Qed.

End Suggestions.

End ServerMore.

(* ===================================================================== *)
(** ** The page's contract *)
(* ===================================================================== *)

Module PageSpec.

Import Server Client Page JsStringFacts JsStringMore LinkFacts.

(** *** The history sidebar *)

(** X8.  The label of a history item is the topic itself up to 25 code
    units; a longer topic is cut to its first 25 units followed by three
    dots.  So a label never exceeds 28 units and always begins like the
    topic. *)
Theorem displayTopic_bounds (topic : jsstring) :
  ((25 < length topic)%nat -> displayTopic topic = firstn 25 topic ++ lit "...")
  /\ ((length topic <= 25)%nat -> displayTopic topic = topic)
  /\ length (displayTopic topic) = (if (25 <? length topic)%nat then 28%nat else length topic)
  /\ (length (displayTopic topic) <= 28)%nat
  /\ firstn 25 (displayTopic topic) = firstn 25 topic.
Proof.
  unfold displayTopic.
  destruct (Nat.ltb_spec 25 (length topic)) as [Hlt|Hge].
  - assert (Hlen : length (firstn 25 topic) = 25%nat) by (rewrite length_take; lia).
    split; [intros _; reflexivity|]. split; [intros H; lia|].
    split; [|split].
    + rewrite length_app, Hlen. reflexivity.
    + rewrite length_app, Hlen. simpl. lia.
    + rewrite take_app_le by lia. rewrite take_take. f_equal.
  - split; [intros H; lia|]. split; [intros _; reflexivity|].
    split; [reflexivity|]. split; [lia | reflexivity].
Qed.

Lemma filter_sublist {A} (f : A -> bool) (l : list A) : sublist (List.filter f l) l.
Proof.
  induction l as [|x l IH]; simpl; [constructor|].
  destruct (f x); [apply sublist_skip | apply sublist_cons]; exact IH.
Qed.

Lemma includes_nil (s : jsstring) : includes s [] = true.
Proof. destruct s; reflexivity. Qed.

(** X9.  [renderHistory] shows items only for entries of the history,
    one item per entry kept and in the history's order, each under its
    label and with the whole topic as title; it shows a message instead
    when the history is empty or no topic matches.  With an empty search
    box (lower-casing the empty string giving the empty string) every
    entry is shown. *)
Theorem renderHistory_items (toLowerCase : jsstring -> jsstring)
    (searchValue : jsstring) (history : list HistoryEntry) :
  match renderHistory toLowerCase searchValue history with
  | Items items =>
      exists kept,
        sublist kept history /\ kept <> []
        /\ kept = filteredHistory toLowerCase searchValue history
        /\ List.map item_title items = List.map entry_topic kept
        /\ List.map item_textContent items = List.map (fun e => displayTopic (entry_topic e)) kept
        /\ List.map item_data_id items = List.map id kept
  | NoHistory _ => history = [] \/ filteredHistory toLowerCase searchValue history = []
  end
  /\ (toLowerCase [] = [] -> history <> [] ->
      renderHistory toLowerCase [] history = Items (List.map historyItem history)).
Proof.
  split.
  - unfold renderHistory. destruct history as [|e h]; [left; reflexivity|].
    destruct (filteredHistory toLowerCase searchValue (e :: h)) as [|k ks] eqn:Hf.
    + right. reflexivity.
    + exists (k :: ks). split; [|split; [discriminate|split; [reflexivity|]]].
      * rewrite <- Hf. apply filter_sublist.
      * rewrite !List.map_map. repeat split.
  - intros Hlc Hne. unfold renderHistory. destruct history as [|e h]; [contradiction|].
    assert (Hall : filteredHistory toLowerCase [] (e :: h) = e :: h).
    { unfold filteredHistory. rewrite Hlc. apply ServerMore.filter_all.
      apply List.Forall_forall. intros x _. apply includes_nil. }
    rewrite Hall. reflexivity.
Qed.

Lemma renderHistory_items_witness :
  let e1 := {| id := 1700000060000; entry_topic := lit "Alan Turing";
               entry_tone := lit "Simple"; entry_responseText := lit "A mathematician.";
               entry_searchQueries := [] |} in
  let e2 := {| id := 1700000000000;
               entry_topic := lit "history of artificial intelligence";
               entry_tone := lit "Default"; entry_responseText := lit "It began in the 1950s.";
               entry_searchQueries := [lit "Dartmouth workshop"] |} in
  renderHistory (fun s => s) [] [e1; e2] =
    Items [ {| item_textContent := lit "Alan Turing"; item_data_id := 1700000060000;
               item_title := lit "Alan Turing" |};
            {| item_textContent := lit "history of artificial int...";
               item_data_id := 1700000000000;
               item_title := lit "history of artificial intelligence" |} ].
Proof.
  intros e1 e2.
  destruct (renderHistory_items (fun s => s) [] [e1; e2]) as [_ H].
  rewrite H; [reflexivity | reflexivity | discriminate].
Defined.

Section Engine.

(** The engine's URIError and the behaviour of the storage during a
    call, whatever they are. *)
Variable uriError : js_error.
Variable setItem : list HistoryEntry -> option js_error.

Local Abbreviation handleGeneration := (Client.handleGeneration uriError setItem).
Local Abbreviation step := (Page.step uriError).
Local Abbreviation run := (Page.run uriError).

(** *** Selecting a history item *)

Lemma selectEntry_frame (entry : HistoryEntry) (st : State) :
  history (selectEntry entry st) = history st
  /\ saved_history (selectEntry entry st) = saved_history st
  /\ lastSubmission (selectEntry entry st) = lastSubmission st
  /\ regenerateButton_shown (view (selectEntry entry st)) = true
  /\ generateButton_disabled (view (selectEntry entry st)) = generateButton_disabled (view st).
Proof. unfold selectEntry. destruct (renderSearchQueries _); repeat split. Qed.

(** X10.  Clicking a history item shows the regenerate button but does
    not touch the last submission.  So a regeneration after the click
    never sends the clicked entry's topic: it sends the topic and tone of
    the last successful submission, and on a page just loaded, where
    nothing was submitted yet, it sends nothing and raises the
    "Please enter a topic or question." alert. *)
Theorem regenerate_after_select (fetch : FetchBody -> fetch_outcome) (now : N)
    (entry : HistoryEntry) (st : State) :
  let selected := selectEntry entry st in
  let r := handleGeneration fetch now true selected in
  regenerateButton_shown (view selected) = true
  /\ lastSubmission selected = lastSubmission st
  /\ (requests (snd r) = []
      \/ requests (snd r) = [{| fetch_topic := sub_topic (lastSubmission st);
                                fetch_style := sub_tone (lastSubmission st) |}])
  /\ (forall stored topic tone page,
        let fresh := selectEntry entry (initialize stored topic tone page) in
        handleGeneration fetch now true fresh
        = (fresh, {| requests := []; alerts := [lit "Please enter a topic or question."] |})).
Proof.
  intros selected r. subst selected r.
  destruct (selectEntry_frame entry st) as (_ & _ & Hlast & Hshown & _).
  split; [exact Hshown|]. split; [exact Hlast|]. split.
  - unfold Client.handleGeneration. rewrite Hlast.
    destruct (is_empty _); [left | right]; reflexivity.
  - intros stored topic tone page fresh. subst fresh.
    unfold Client.handleGeneration.
    destruct (selectEntry_frame entry (initialize stored topic tone page))
      as (_ & _ & -> & _).
    reflexivity.
Qed.



(** *** What any sequence of user actions keeps *)

Lemma submit_frame fetch now (st : State) :
  let st' := fst (handleGeneration fetch now false st) in
  (history st' = history st /\ saved_history st' = saved_history st)
  \/ (exists entry,
        history st' = entry :: history st
        /\ ((setItem (entry :: history st) = None /\ saved_history st' = entry :: history st)
            \/ (setItem (entry :: history st) <> None
                /\ saved_history st' = saved_history st))).
Proof.
  unfold Client.handleGeneration.
  destruct (is_empty _); [left; split; reflexivity|].
  destruct (try_fetch _) as [e|data]; cbn [fst negb]; [left; split; reflexivity|].
  destruct (renderSearchQueries _); [|left; split; reflexivity].
  right. unfold addToHistory, saveHistory. cbn [history].
  match goal with
  | |- context [setItem (?e :: history st)] =>
      destruct (setItem (e :: history st)) eqn:Hs; exists e
  end.
  - split; [reflexivity|]. right. split; [rewrite Hs; discriminate | reflexivity].
  - split; [reflexivity|]. left. split; [exact Hs | reflexivity].
Qed.

End Engine.

Section Runs.

Variable uriError : js_error.

Local Abbreviation handleGeneration := (Client.handleGeneration uriError).
Local Abbreviation step := (Page.step uriError).
Local Abbreviation run := (Page.run uriError).

Lemma clearHistory_frame (setItem : list HistoryEntry -> option js_error) (st : State) :
  history (clearHistory setItem st) = []
  /\ generateButton_disabled (view (clearHistory setItem st))
     = generateButton_disabled (view st)
  /\ (setItem [] = None -> saved_history (clearHistory setItem st) = []).
Proof.
  unfold clearHistory, saveHistory. cbn [history].
  destruct (setItem []); repeat split; intros; congruence.
Qed.

Lemma step_persisted (st : State) (ev : event) :
  storage_accepts ev ->
  saved_history st = history st -> saved_history (step st ev) = history (step st ev).
Proof.
  intros Hacc Hinv. destruct ev as [fetch setItem now|fetch now|i|setItem|topic tone];
    cbn [Page.step storage_accepts] in *.
  - destruct (submit_frame uriError setItem fetch now st)
      as [[-> ->]|(entry & -> & [[_ ->]|[Hno _]])];
      [exact Hinv | reflexivity | exfalso; apply Hno; apply Hacc].
  - destruct (ClientSpec.regeneration_frame uriError (fun _ => None) fetch now st) as [-> ->].
    exact Hinv.
  - destruct (history st !! i) as [entry|]; [|exact Hinv].
    destruct (selectEntry_frame entry st) as (-> & -> & _). exact Hinv.
  - destruct (clearHistory_frame setItem st) as (-> & _ & Hsaved).
    rewrite Hsaved; [reflexivity | apply Hacc].
  - exact Hinv.
Qed.

Lemma run_persisted (events : list event) :
  Forall storage_accepts events ->
  forall st, saved_history st = history st ->
             saved_history (run st events) = history (run st events).
Proof.
  induction events as [|ev evs IH]; intros Hacc st Hinv; [exact Hinv|].
  apply Forall_cons in Hacc as [Hev Hevs].
  apply (IH Hevs). apply step_persisted; assumption.
Qed.

(** X12.  From a page load on, as long as the storage takes what is
    written to it, whatever the user does (submit, regenerate, click
    items, clear, edit the form) and however the fetches go, the stored
    history is the history in memory; so loading the page again brings
    back exactly the history that was shown.  When the storage refuses the
    write of a submission that otherwise succeeds, the new entry is in
    memory but not in the storage, and the page shows the failure text
    with the storage's error. *)
Theorem history_is_persisted
    (stored : option (list HistoryEntry)) (topic tone : jsstring) (page : View)
    (events : list event) (topic' tone' : jsstring) (page' : View) :
  Forall storage_accepts events ->
  let st := run (initialize stored topic tone page) events in
  saved_history st = history st
  /\ history (initialize (Some (saved_history st)) topic' tone' page') = history st
  /\ (forall fetch refusing now (e : js_error) (st0 : State) (data : Data),
        is_empty (trim (topicTextarea_value st0)) = false ->
        fetch {| fetch_topic := topicTextarea_value st0;
                 fetch_style := toneSelect_value st0 |} = Ok (Json data) ->
        forallb isWellFormed (queries_of (data_searchQueries data)) = true ->
        (forall h, refusing h = Some e) ->
        let st' := step st0 (Submit fetch refusing now) in
        history st' =
          {| id := now; entry_topic := topicTextarea_value st0;
             entry_tone := toneSelect_value st0;
             entry_responseText := data_responseText data;
             entry_searchQueries := queries_of (data_searchQueries data) |} :: history st0
        /\ saved_history st' = saved_history st0
        /\ postOutput (view st')
           = lit "Failed to generate response. Error: " ++ message_text e).
Proof.
  intros Hacc st.
  assert (Hinv : saved_history st = history st).
  { apply run_persisted; [exact Hacc|]. destruct stored; reflexivity. }
  split; [exact Hinv|]. split; [simpl; exact Hinv|].
  intros fetch refusing now e st0 data Htopic Hfetch Hwf Href st'. subst st'.
  cbn [Page.step]. unfold Client.handleGeneration. cbn [negb].
  rewrite Htopic, Hfetch. cbn [try_fetch fst].
  rewrite (renderSearchQueries_wellFormed _ Hwf).
  unfold addToHistory, saveHistory. cbn [history]. rewrite Href.
  repeat split.
Qed.

Lemma step_grows (st : State) (ev : event) :
  is_clear ev = false ->
  history (step st ev) = history st
  \/ exists entry, history (step st ev) = entry :: history st.
Proof.
  intros Hc. destruct ev as [fetch setItem now|fetch now|i|setItem|topic tone];
    cbn [Page.step].
  - destruct (submit_frame uriError setItem fetch now st) as [[-> _]|(entry & -> & _)];
      [left; reflexivity | right; eexists; reflexivity].
  - left. apply ClientSpec.regeneration_frame.
  - left. destruct (history st !! i) as [entry|]; [|reflexivity].
    apply selectEntry_frame.
  - discriminate.
  - left. reflexivity.
Qed.

(** X13.  The history is never re-ordered or edited: as long as it is not
    cleared, the entries that were there stay, in their order, behind the
    newer ones, and at most one entry is added per action. *)
Theorem history_grows_at_head (st : State) (events : list event) :
  forallb (fun ev => negb (is_clear ev)) events = true ->
  exists newer,
    history (run st events) = newer ++ history st
    /\ (length newer <= length events)%nat.
Proof.
  revert st. induction events as [|ev evs IH]; intros st Hno.
  - exists []. split; [reflexivity | simpl; lia].
  - cbn [forallb] in Hno. apply andb_true_iff in Hno as [Hev Hevs].
    apply negb_true_iff in Hev.
    destruct (IH (step st ev) Hevs) as (newer & Hh & Hlen).
    change (run st (ev :: evs)) with (run (step st ev) evs). rewrite Hh.
    destruct (step_grows st ev Hev) as [->|[entry ->]].
    + exists newer. split; [reflexivity | simpl; lia].
    + exists (newer ++ [entry]). split.
      * rewrite <- app_assoc. reflexivity.
      * rewrite length_app. simpl. lia.
Qed.

Lemma handleGeneration_idle setItem fetch now isRegeneration (st : State) :
  generateButton_disabled (view st) = false
  \/ requests (snd (handleGeneration setItem fetch now isRegeneration st)) <> [] ->
  generateButton_disabled (view (fst (handleGeneration setItem fetch now isRegeneration st)))
  = false.
Proof.
  unfold Client.handleGeneration.
  destruct (is_empty _).
  - intros [H|H]; [exact H | contradiction H; reflexivity].
  - intros _. destruct (try_fetch _) as [e|data]; cbn [fst]; [reflexivity|].
    destruct (renderSearchQueries _); [|reflexivity].
    destruct isRegeneration; cbn [negb]; [reflexivity|].
    unfold addToHistory, saveHistory. cbn [history].
    destruct (setItem _); reflexivity.
Qed.

Lemma step_idle (st : State) (ev : event) :
  generateButton_disabled (view st) = false ->
  generateButton_disabled (view (step st ev)) = false.
Proof.
  intros Hidle.
  destruct ev as [fetch setItem now|fetch now|i|setItem|topic tone]; cbn [Page.step].
  - apply handleGeneration_idle. left. exact Hidle.
  - apply handleGeneration_idle. left. exact Hidle.
  - destruct (history st !! i) as [entry|]; [|exact Hidle].
    destruct (selectEntry_frame entry st) as (_ & _ & _ & _ & ->). exact Hidle.
  - destruct (clearHistory_frame setItem st) as (_ & -> & _). exact Hidle.
  - exact Hidle.
Qed.

End Runs.

Section Calls.

Variable uriError : js_error.
Variable setItem : list HistoryEntry -> option js_error.

Local Abbreviation handleGeneration := (Client.handleGeneration uriError setItem).
Local Abbreviation step := (Page.step uriError).
Local Abbreviation run := (Page.run uriError).

(** X14.  The generate button always comes back: a call that sends a
    request leaves the button enabled whether the fetch succeeds, is
    answered with an error, or throws; and from a page whose button is
    enabled, no sequence of user actions ends with it disabled. *)
Theorem generate_button_reenabled (st : State) (events : list event) :
  generateButton_disabled (view st) = false ->
  generateButton_disabled (view (run st events)) = false
  /\ (forall fetch now isRegeneration (st' : State),
        requests (snd (handleGeneration fetch now isRegeneration st')) <> [] ->
        generateButton_disabled (view (fst (handleGeneration fetch now isRegeneration st')))
        = false).
Proof.
  intros Hidle. split.
  - revert st Hidle. induction events as [|ev evs IH]; intros st Hidle; [exact Hidle|].
    apply (IH (Page.step uriError st ev)). apply step_idle. exact Hidle.
  - intros fetch now isRegeneration st' Hreq.
    apply handleGeneration_idle. right. exact Hreq.
Qed.

(** *** The page and the backend together *)

Lemma nonblank_nonempty (s : jsstring) : is_empty (trim s) = false -> s <> [].
Proof. intros H ->. discriminate H. Qed.

(** Every reply of the /generate-post handler is one the page can read. *)
Lemma generate_post_received (up : upstream) (body : PostBody) :
  exists o, received (sent (generate_post up body)) = Some o.
Proof.
  unfold generate_post. destruct (topic body) as [[|c t]|]; cbn [sent].
  1,3: eexists; reflexivity.
  destruct (try_generate _) as [e|r]; cbn [sent].
  - rewrite ServerSpec.catch_reply_fixed. destruct (is_quota_error e); eexists; reflexivity.
  - eexists; reflexivity.
Qed.

(** X15.  The page never runs into the backend's 400: a request it
    sends, for a submission or a regeneration, carries a topic that is not
    blank, so the handler of /generate-post passes its topic guard and
    sends the prompt built from that topic and tone upstream. *)
Theorem page_requests_pass_topic_guard
    (fetch : FetchBody -> fetch_outcome) (now : N) (isRegeneration : bool) (st : State)
    (up : upstream) :
  Forall (fun rq =>
            forallb isWhiteSpace (fetch_topic rq) = false
            /\ status (sent (generate_post up (posted rq))) <> 400
            /\ upstream_calls (generate_post up (posted rq))
               = [getPromptForStyle (fetch_topic rq) (Some (fetch_style rq))])
    (requests (snd (handleGeneration fetch now isRegeneration st))).
Proof.
  unfold Client.handleGeneration.
  destruct (is_empty (trim _)) eqn:Hblank; cbn [snd requests]; constructor; [|constructor].
  cbn [fetch_topic fetch_style].
  set (topic := if isRegeneration then sub_topic (lastSubmission st) else topicTextarea_value st) in *.
  split; [rewrite <- trim_nil; exact Hblank|].
  pose proof (nonblank_nonempty _ Hblank) as Hne.
  unfold posted, generate_post. cbn [Server.topic Server.style fetch_topic fetch_style].
  destruct topic as [|c t]; [contradiction|].
  destruct (try_generate _) as [e|r]; cbn [sent upstream_calls status].
  - split; [|reflexivity]. rewrite ServerSpec.catch_reply_fixed.
    destruct (is_quota_error e); simpl; discriminate.
  - split; [discriminate | reflexivity].
Qed.


(** X17.  End to end, on failure.  When the handler's try block ends in
    an error, the page shows "Failed to generate response. Error: "
    followed by the backend's fixed message (the quota one for an error
    whose message contains "429" or "quota", the generic one otherwise),
    hides the copy and regenerate buttons, and leaves the history, its
    stored copy and the last submission as they were.  The upstream's own
    error text is not part of what is shown. *)
Theorem end_to_end_failure (up : upstream) (now : N) (isRegeneration : bool) (st : State)
    (e : js_error) :
  let topic := if isRegeneration then sub_topic (lastSubmission st)
               else topicTextarea_value st in
  let tone := if isRegeneration then sub_tone (lastSubmission st)
              else toneSelect_value st in
  is_empty (trim topic) = false ->
  try_generate (up (getPromptForStyle topic (Some tone))) = inl e ->
  exists o,
    received (sent (generate_post up (posted {| fetch_topic := topic; fetch_style := tone |})))
      = Some o
    /\ let st' := fst (handleGeneration (fun _ => o) now isRegeneration st) in
       postOutput (view st') =
         lit "Failed to generate response. Error: "
         ++ (if is_quota_error e then QUOTA_MESSAGE else GENERIC_MESSAGE)
       /\ copyButton_shown (view st') = false
       /\ regenerateButton_shown (view st') = false
       /\ history st' = history st
       /\ saved_history st' = saved_history st
       /\ lastSubmission st' = lastSubmission st.
Proof.
  intros topic tone Hblank Htry.
  pose proof (nonblank_nonempty _ Hblank) as Hne.
  unfold posted, generate_post. cbn [Server.topic Server.style fetch_topic fetch_style].
  destruct topic as [|c t] eqn:Ht; [contradiction|].
  rewrite Htry. cbn [sent]. rewrite ServerSpec.catch_reply_fixed.
  destruct (is_quota_error e); (eexists; split; [reflexivity|]);
    unfold Client.handleGeneration; fold topic; rewrite Ht, Hblank;
    cbn [try_fetch fst]; repeat split.
Qed.

End Calls.

(** *** The statements above at a concrete page *)


Lemma history_is_persisted_witness :
  let uriError := Error (Some (lit "URI malformed")) in
  let data := {| data_responseText := lit "AI began in the 1950s.";
                 data_searchQueries := None |} in
  let page := {| userPromptText := []; postOutput := []; searchLinks := [];
                 resultContainer_shown := false; copyButton_shown := false;
                 regenerateButton_shown := false; searchLinksContainer_shown := false;
                 generateButton_disabled := false |} in
  let events := [Submit (fun _ => Ok (Json data)) (fun _ => None) 1700000000000;
                 Select 0%nat;
                 Regenerate (fun _ => FetchThrows (Error None)) 1700000060000] in
  let st := run uriError (initialize None (lit "history of AI") (lit "Simple") page) events in
  length (history st) = 1%nat
  /\ history (initialize (Some (saved_history st)) [] [] page) = history st.
Proof.
  intros uriError data page events st.
  destruct (history_is_persisted uriError None (lit "history of AI") (lit "Simple") page
              events [] [] page) as (_ & Hreload & _).
  - repeat constructor; intros h; reflexivity.
  - split; [reflexivity | exact Hreload].
Defined.

Lemma history_grows_at_head_witness :
  let uriError := Error (Some (lit "URI malformed")) in
  let old := {| id := 1700000000000; entry_topic := lit "Alan Turing";
                entry_tone := lit "Simple"; entry_responseText := lit "A mathematician.";
                entry_searchQueries := [] |} in
  let data := {| data_responseText := lit "AI began in the 1950s.";
                 data_searchQueries := None |} in
  let st := initialize (Some [old]) (lit "history of AI") (lit "Simple")
              {| userPromptText := []; postOutput := []; searchLinks := [];
                 resultContainer_shown := false; copyButton_shown := false;
                 regenerateButton_shown := false; searchLinksContainer_shown := false;
                 generateButton_disabled := false |} in
  let events := [Submit (fun _ => Ok (Json data)) (fun _ => None) 1700000060000;
                 Select 1%nat;
                 Regenerate (fun _ => FetchThrows (Error (Some (lit "Failed to fetch")))) 1700000120000] in
  exists newer, history (run uriError st events) = newer ++ [old] /\ (length newer <= 3)%nat.
Proof.
  intros uriError old data st events.
  apply (history_grows_at_head uriError st events). reflexivity.
Defined.

Lemma generate_button_reenabled_witness :
  let uriError := Error (Some (lit "URI malformed")) in
  let st := initialize None (lit "history of AI") (lit "Simple")
              {| userPromptText := []; postOutput := []; searchLinks := [];
                 resultContainer_shown := false; copyButton_shown := false;
                 regenerateButton_shown := false; searchLinksContainer_shown := false;
                 generateButton_disabled := false |} in
  let events := [Submit (fun _ => NotOk 500 (NotJson (Error (Some (lit "Unexpected token <")))))
                   (fun _ => None) 1700000000000;
                 Regenerate (fun _ => FetchThrows (Error None)) 1700000060000;
                 Clear (fun _ => None)] in
  generateButton_disabled (view (run uriError st events)) = false.
Proof.
  intros uriError st events.
  destruct (generate_button_reenabled uriError (fun _ => None) st events) as [H _];
    [reflexivity | exact H].
Defined.


Lemma end_to_end_failure_witness :
  let uriError := Error (Some (lit "URI malformed")) in
  let setItem : list HistoryEntry -> option js_error := fun _ => None in
  let up : upstream :=
    fun _ => Rejects (Error (Some (lit "[429 Too Many Requests] Resource has been exhausted"))) in
  let st := initialize None (lit "history of AI") (lit "Simple")
              {| userPromptText := []; postOutput := []; searchLinks := [];
                 resultContainer_shown := false; copyButton_shown := false;
                 regenerateButton_shown := false; searchLinksContainer_shown := false;
                 generateButton_disabled := false |} in
  exists o,
    received (sent (generate_post up (posted {| fetch_topic := lit "history of AI";
                                                fetch_style := lit "Simple" |}))) = Some o
    /\ postOutput (view (fst (handleGeneration uriError setItem (fun _ => o)
                                1700000000000 false st)))
       = lit "Failed to generate response. Error: The daily API quota has been reached. Please try again tomorrow.".
Proof.
  intros uriError setItem up st.
  destruct (end_to_end_failure uriError setItem up 1700000000000 false st
              (Error (Some (lit "[429 Too Many Requests] Resource has been exhausted"))))
    as (o & Ho & Hout & _).
  - reflexivity.
  - reflexivity.
  - exists o. split; [exact Ho|]. rewrite Hout. reflexivity.
Defined.

(** *** The theme toggle *)


(** *** The search links *)

Lemma decimal_digit_safe (c : code_unit) : 48 <= c -> c <= 57 -> url_safe c = true.
Proof.
  intros Hlo Hhi. unfold url_safe, isUnreserved.
  apply N.leb_le in Hlo, Hhi. rewrite Hlo, Hhi. cbn [andb].
  rewrite orb_true_r. reflexivity.
Qed.

Lemma upper_case_safe (c : code_unit) : 65 <= c -> c <= 90 -> url_safe c = true.
Proof.
  intros Hlo Hhi. unfold url_safe, isUnreserved.
  apply N.leb_le in Hlo, Hhi. rewrite Hlo, Hhi. reflexivity.
Qed.

Lemma hexDigit_safe (n : N) : n < 16 -> url_safe (hexDigit n) = true.
Proof.
  intros Hn. unfold hexDigit.
  destruct (N.ltb_spec n 10); [apply decimal_digit_safe | apply upper_case_safe]; lia.
Qed.

Lemma escapeOctet_safe (b : N) : b < 256 -> Forall (fun c => url_safe c = true) (escapeOctet b).
Proof.
  intros Hb. unfold escapeOctet. repeat constructor.
  - apply hexDigit_safe. apply N.Div0.div_lt_upper_bound. lia.
  - apply hexDigit_safe. apply N.mod_lt. lia.
Qed.

Lemma utf8_octets (cp : N) : cp < 1114112 -> Forall (fun b => b < 256) (utf8 cp).
Proof.
  intros Hcp. unfold utf8.
  destruct (N.ltb_spec cp 128); [repeat constructor; lia|].
  destruct (N.ltb_spec cp 2048).
  { repeat constructor.
    - assert (cp / 64 < 32) by (apply N.Div0.div_lt_upper_bound; lia). lia.
    - pose proof (N.mod_lt cp 64). lia. }
  destruct (N.ltb_spec cp 65536).
  { repeat constructor.
    - assert (cp / 4096 < 16) by (apply N.Div0.div_lt_upper_bound; lia). lia.
    - pose proof (N.mod_lt (cp / 64) 64). lia.
    - pose proof (N.mod_lt cp 64). lia. }
  repeat constructor.
  - assert (cp / 262144 < 5) by (apply N.Div0.div_lt_upper_bound; lia). lia.
  - pose proof (N.mod_lt (cp / 4096) 64). lia.
  - pose proof (N.mod_lt (cp / 64) 64). lia.
  - pose proof (N.mod_lt cp 64). lia.
Qed.

Lemma escapeCodePoint_safe (cp : N) :
  cp < 1114112 -> Forall (fun c => url_safe c = true) (escapeCodePoint cp).
Proof.
  intros Hcp. unfold escapeCodePoint.
  pose proof (utf8_octets cp Hcp) as Hb.
  induction Hb as [|b bs Hb _ IH]; cbn [List.map concat]; [constructor|].
  apply Forall_app. split; [apply escapeOctet_safe; exact Hb | exact IH].
Qed.

Lemma encodeURIComponent_safe (n : nat) :
  forall s e, (length s <= n)%nat ->
    Forall (fun c => c < 65536) s ->
    encodeURIComponent s = Some e -> Forall (fun c => url_safe c = true) e.
Proof.
  induction n as [|n IH]; intros s e Hlen Hunits Henc.
  - destruct s; [|simpl in Hlen; lia]. injection Henc as <-. constructor.
  - destruct s as [|c rest]; [injection Henc as <-; constructor|].
    apply Forall_cons in Hunits as [Hc Hrest]. simpl in Hlen.
    cbn [encodeURIComponent] in Henc.
    destruct (isUnreserved c) eqn:Hu.
    { destruct (encodeURIComponent rest) as [e'|] eqn:He; [|discriminate].
      injection Henc as <-. constructor.
      - unfold url_safe. rewrite Hu. reflexivity.
      - apply (IH rest e'); [lia | exact Hrest | exact He]. }
    destruct (isLowSurrogate c); [discriminate|].
    destruct (isHighSurrogate c) eqn:Hh.
    { destruct rest as [|d rest']; [discriminate|].
      destruct (isLowSurrogate d) eqn:Hl; [|discriminate].
      destruct (encodeURIComponent rest') as [e'|] eqn:He; [|discriminate].
      injection Henc as <-.
      apply Forall_cons in Hrest as [Hd Hrest']. simpl in Hlen.
      apply Forall_app. split.
      - apply escapeCodePoint_safe.
        unfold isHighSurrogate in Hh. unfold isLowSurrogate in Hl.
        apply andb_true_iff in Hh as [_ Hh]. apply andb_true_iff in Hl as [_ Hl].
        apply N.leb_le in Hh, Hl. lia.
      - apply (IH rest' e'); [lia | exact Hrest' | exact He]. }
    destruct (encodeURIComponent rest) as [e'|] eqn:He; [|discriminate].
    injection Henc as <-. apply Forall_app. split.
    + apply escapeCodePoint_safe. lia.
    + apply (IH rest e'); [lia | exact Hrest | exact He].
Qed.

(** X19.  A search link always points at Google's search page with the
    query as its only parameter: behind [?q=] there are only letters,
    digits, [- _ . ! ~ * ' ( )] and [%XX] escapes, so no query text can
    add a parameter or a fragment of its own; and the link's text is the
    query as it came. *)
Theorem searchLink_is_well_formed (query : jsstring) (l : Link) :
  Forall (fun c => c < 65536) query ->
  searchLink query = Some l ->
  textContent l = query
  /\ exists q,
       href l = lit "https://www.google.com/search?q=" ++ q
       /\ encodeURIComponent query = Some q
       /\ Forall (fun c => url_safe c = true) q
       /\ ~ In 38 q /\ ~ In 35 q /\ ~ In 61 q /\ ~ In 32 q.
Proof.
  intros Hunits Hl. unfold searchLink in Hl.
  destruct (encodeURIComponent query) as [q|] eqn:Hq; [|discriminate].
  injection Hl as <-. split; [reflexivity|]. exists q.
  pose proof (encodeURIComponent_safe _ query q (le_n _) Hunits Hq) as Hsafe.
  split; [reflexivity|]. split; [reflexivity|]. split; [exact Hsafe|].
  rewrite List.Forall_forall in Hsafe.
  repeat split; intros Hin; apply Hsafe in Hin; discriminate Hin.
Qed.

Lemma searchLink_is_well_formed_witness :
  searchLink (lit "AT&T history #1")
  = Some {| href := lit "https://www.google.com/search?q=AT%26T%20history%20%231";
            textContent := lit "AT&T history #1" |}
  /\ ~ In 38 (lit "AT%26T%20history%20%231").
Proof.
  assert (H : searchLink (lit "AT&T history #1")
              = Some {| href := lit "https://www.google.com/search?q=AT%26T%20history%20%231";
                        textContent := lit "AT&T history #1" |}) by reflexivity.
  split; [exact H|].
  destruct (searchLink_is_well_formed (lit "AT&T history #1") _
              ltac:(repeat constructor) H)
    as (_ & q & Hhref & _ & _ & Hamp & _).
  cbn [href] in Hhref.
  change (lit "https://www.google.com/search?q=AT%26T%20history%20%231")
    with (lit "https://www.google.com/search?q=" ++ lit "AT%26T%20history%20%231") in Hhref.
  apply app_inv_head in Hhref. rewrite Hhref. exact Hamp.
Defined.

(** X20.  Building the links fails only on broken text: encoding a query
    throws exactly when the query has a surrogate without its partner.
    When every query is well formed the loop appends one link per query,
    in order, each showing its query, which are the links the page
    records; otherwise it stops at the first broken query, the links
    before it staying in the list. *)
Theorem appendLinks_completes (queries : list jsstring) :
  (forall q, encodeURIComponent q = None <-> isWellFormed q = false)
  /\ snd (appendLinks queries) = forallb isWellFormed queries
  /\ (exists rest,
        queries = List.map textContent (fst (appendLinks queries)) ++ rest
        /\ (snd (appendLinks queries) = true -> rest = [])
        /\ (snd (appendLinks queries) = false ->
            exists bad rest', rest = bad :: rest' /\ isWellFormed bad = false))
  /\ (forallb isWellFormed queries = true -> queries <> [] ->
      renderSearchQueries (Some queries)
      = Rendered (List.map textContent (fst (appendLinks queries))) true).
Proof.
  assert (Hthrow : forall q, encodeURIComponent q = None <-> isWellFormed q = false).
  { exact encodeURIComponent_wellFormed. }
  assert (Hloop : snd (appendLinks queries) = forallb isWellFormed queries
                  /\ exists rest,
                       queries = List.map textContent (fst (appendLinks queries)) ++ rest
                       /\ (snd (appendLinks queries) = true -> rest = [])
                       /\ (snd (appendLinks queries) = false ->
                           exists bad rest', rest = bad :: rest' /\ isWellFormed bad = false)).
  { induction queries as [|q qs (IHs & rest & IHq & IHt & IHf)]; cbn [appendLinks forallb].
    - split; [reflexivity|]. exists [].
      split; [reflexivity|split; [intros _; reflexivity | discriminate]].
    - unfold searchLink. destruct (encodeURIComponent q) as [e|] eqn:He.
      + assert (Hw : isWellFormed q = true).
        { destruct (isWellFormed q) eqn:Hw; [reflexivity|].
          apply Hthrow in Hw. congruence. }
        rewrite Hw. destruct (appendLinks qs) as [ls done]. cbn [fst snd andb] in *.
        split; [exact IHs|]. exists rest. cbn [List.map textContent app].
        split; [f_equal; exact IHq|]. split; [exact IHt | exact IHf].
      + apply Hthrow in He. rewrite He. cbn [fst snd andb List.map app].
        split; [reflexivity|]. exists (q :: qs).
        split; [reflexivity|]. split; [discriminate|].
        intros _. exists q, qs. split; [reflexivity | exact He]. }
  destruct Hloop as (Hs & rest & Hq & Ht & Hf).
  split; [exact Hthrow|]. split; [exact Hs|]. split; [exists rest; auto|].
  intros Hall Hne. rewrite <- Hs in Hall. clear Hq Ht Hf Hs.
  destruct queries as [|q qs]; [contradiction|].
  unfold renderSearchQueries.
  destruct (appendLinks (q :: qs)) as [ls done]. cbn [fst snd] in *.
  rewrite Hall. reflexivity.
Qed.

End PageSpec.
